(** * ioBroker.canbus: the message editor component and its validity protocol

    Shallow embedding of the class [Message] of
    [admin/src/components/message.tsx].

    The component is a React class: its methods read [this.props] and
    [this.state], replace parts of the state with [setState], allocate
    JavaScript objects ([{ ...obj }], object literals) and call the optional
    callbacks of its props.  All of that is modelled by a state monad over a
    [World] holding the props, the component state, the object heap and the
    trace of callback invocations.  Each handler is modelled as one
    uninterrupted run: [setState] followed by its completion callback is the
    merge of the partial state followed by the callback's body. *)

From Stdlib Require Import ZArith String Ascii DecimalString DecimalPos DecimalZ Lia List.
From stdpp Require Import base gmap strings list fin_maps.

Open Scope Z_scope.

(** ** The parts of JavaScript the component relies on *)

Module Js.

(** [Number.prototype.toString] (and template-literal interpolation) on an
    integral number: the decimal numeral, with a leading minus sign for
    negative numbers.  That is what JavaScript gives for the integers it
    holds exactly and writes in full, those of magnitude up to 2^53, every
    data length among them; larger numbers, which JavaScript rounds or
    writes with an exponent, are outside this model. *)
Definition Number_toString (n : Z) : string :=
  NilZero.string_of_int (Z.to_int n).

(** Regular expressions, as far as the message-id pattern needs them:
    character classes, concatenation and alternation. *)
Inductive regexp : Type :=
| Eps
| Class (accepts : ascii -> bool)
| Seq (r1 r2 : regexp)
| Alt (r1 r2 : regexp).

(** [r{n}] *)
Fixpoint Repeat (n : nat) (r : regexp) : regexp :=
  match n with
  | O => Eps
  | S n' => Seq r (Repeat n' r)
  end.

(** Backtracking matcher: [run r s k] tries to match [r] on a prefix of
    [s] and hands the remaining input to the continuation [k]. *)
Fixpoint run (r : regexp) (s : string) (k : string -> bool) : bool :=
  match r with
  | Eps => k s
  | Class accepts =>
      match s with
      | String c s' => accepts c && k s'
      | EmptyString => false
      end
  | Seq r1 r2 => run r1 s (fun s' => run r2 s' k)
  | Alt r1 r2 => run r1 s k || run r2 s k
  end.

Definition at_end (s : string) : bool :=
  match s with
  | EmptyString => true
  | String _ _ => false
  end.

(** [s.match(/^r$/)] is truthy: the match starts at the first character
    and must consume the whole input. *)
Definition matches (r : regexp) (s : string) : bool := run r s at_end.
Arguments matches : simpl never.

Definition in_range (lo hi c : ascii) : bool :=
  (N_of_ascii lo <=? N_of_ascii c)%N && (N_of_ascii c <=? N_of_ascii hi)%N.

(** [[0-9a-f]] under the [i] flag. *)
Definition hex_digit_i (c : ascii) : bool :=
  in_range "0" "9" c || in_range "a" "f" c || in_range "A" "F" c.

End Js.

(** ** Translations *)

Module I18n.

(** [I18n.t] of the adapter-react library: the translation of a text.
    The translation tables are not part of the sources. *)
Class Translations : Type := t : string -> string.

End I18n.

(** ** Constants *)

Module Consts.

(** Modelled from the spec: the constant [MESSAGE_ID_REGEXP] of
    [src/consts], which [message.tsx] imports but which is not among the
    sources.  The specification gives its language: exactly 3 or exactly 8
    hexadecimal characters, case-insensitive
    ([/^([0-9a-f]{3}|[0-9a-f]{8})$/i]). *)
Definition MESSAGE_ID_REGEXP : Js.regexp :=
  Js.Alt (Js.Repeat 3 (Js.Class Js.hex_digit_i))
         (Js.Repeat 8 (Js.Class Js.hex_digit_i)).

End Consts.

(** ** The component *)

Module Message.

(** References to JavaScript objects. *)
Definition ref : Type := positive.

(** [ioBroker.AdapterConfigMessageParser], with the fields of the object
    literal in [onParserAdd]. *)
Record AdapterConfigMessageParser : Type := {
  parser_id : string;
  parser_name : string;
  dataType : string;
  dataLength : Z;
  dataOffset : Z;
  dataUnit : string;
  dataEncoding : string;
  booleanMask : Z;
  booleanInvert : bool;
  customScriptRead : string;
  customScriptWrite : string
}.

(** [ioBroker.AdapterConfigMessage], as handed to [props.onChange]: the
    seven persisted fields.  [cfg_parsers] is a reference to the object
    mapping parser uuids to parser configs. *)
Record AdapterConfigMessage : Type := {
  cfg_id : string;
  cfg_name : string;
  cfg_dlc : Z;
  cfg_receive : bool;
  cfg_send : bool;
  cfg_autosend : bool;
  cfg_parsers : ref
}.

(** [props.config] as the constructor reads it: every field may be
    missing ([None] stands for [undefined]). *)
Record ConfigInput : Type := {
  in_id : option string;
  in_name : option string;
  in_dlc : option Z;
  in_receive : option bool;
  in_send : option bool;
  in_autosend : option bool;
  in_parsers : option ref
}.

(** [MessageProps].  An optional callback is represented by whether it is
    defined; calling it appends an [Event] to the trace.  [context] and
    [classes] only reach the rendered widgets and are left out. *)
Record MessageProps : Type := {
  onChange : bool;
  onDelete : bool;
  onValidate : bool;
  onAdd : bool;
  uuid : string;
  config : ConfigInput;
  readonly : bool
}.

(** [MessageState]: the persisted fields of [AdapterConfigMessage]
    together with the four transient ones. *)
Record MessageState : Type := {
  tabIndex : Z;
  id : string;
  idError : option string;
  name : string;
  dlc : Z;
  receive : bool;
  send : bool;
  autosend : bool;
  parsers : ref;
  parsersValid : gmap string bool;
  showRemoveConfirm : bool
}.

(** One key of [MessageState] with a value of its type: the arguments
    [key], [value] of [handleChange<T extends keyof MessageState>]. *)
Inductive KeyValue : Type :=
| K_tabIndex (v : Z)
| K_id (v : string)
| K_idError (v : option string)
| K_name (v : string)
| K_dlc (v : Z)
| K_receive (v : bool)
| K_send (v : bool)
| K_autosend (v : bool)
| K_parsers (v : ref)
| K_parsersValid (v : gmap string bool)
| K_showRemoveConfirm (v : bool).

(** [Partial<MessageState>]: the keys that are set, in assignment order; a
    later assignment of a key overrides an earlier one. *)
Definition PartialState : Type := list KeyValue.

(** [state.id] of a partial state ([None] for [undefined]). *)
Fixpoint get_id (state : PartialState) : option string :=
  match state with
  | [] => None
  | K_id v :: rest =>
      match get_id rest with
      | Some v' => Some v'
      | None => Some v
      end
  | _ :: rest => get_id rest
  end.

(** [state[key] = value] on a full state. *)
Definition assign (s : MessageState) (kv : KeyValue) : MessageState :=
  let '(Build_MessageState a1 a2 a3 a4 a5 a6 a7 a8 a9 a10 a11) := s in
  match kv with
  | K_tabIndex v => Build_MessageState v a2 a3 a4 a5 a6 a7 a8 a9 a10 a11
  | K_id v => Build_MessageState a1 v a3 a4 a5 a6 a7 a8 a9 a10 a11
  | K_idError v => Build_MessageState a1 a2 v a4 a5 a6 a7 a8 a9 a10 a11
  | K_name v => Build_MessageState a1 a2 a3 v a5 a6 a7 a8 a9 a10 a11
  | K_dlc v => Build_MessageState a1 a2 a3 a4 v a6 a7 a8 a9 a10 a11
  | K_receive v => Build_MessageState a1 a2 a3 a4 a5 v a7 a8 a9 a10 a11
  | K_send v => Build_MessageState a1 a2 a3 a4 a5 a6 v a8 a9 a10 a11
  | K_autosend v => Build_MessageState a1 a2 a3 a4 a5 a6 a7 v a9 a10 a11
  | K_parsers v => Build_MessageState a1 a2 a3 a4 a5 a6 a7 a8 v a10 a11
  | K_parsersValid v => Build_MessageState a1 a2 a3 a4 a5 a6 a7 a8 a9 v a11
  | K_showRemoveConfirm v => Build_MessageState a1 a2 a3 a4 a5 a6 a7 a8 a9 a10 v
  end.

(** The merge performed by [setState]. *)
Definition merge (s : MessageState) (state : PartialState) : MessageState :=
  fold_left assign state s.

(** Objects on the heap: parser configs and uuid-keyed parser mappings. *)
Inductive Obj : Type :=
| OParser (p : AdapterConfigMessageParser)
| OParsers (m : gmap string ref).

(** Invocations of the callbacks of the props. *)
Inductive Event : Type :=
| EvChange (msgUuid : string) (cfg : AdapterConfigMessage)
| EvDelete (msgUuid : string)
| EvValidate (msgUuid : string) (isValid : bool)
| EvAdd (msgUuid : string).

Record World : Type := {
  props : MessageProps;
  state : MessageState;
  heap : gmap ref Obj;
  trace : list Event
}.

(** *** The monad of component methods *)

Definition M (A : Type) : Type := World -> A * World.

Definition ret {A : Type} (a : A) : M A := fun w => (a, w).

Definition bind {A B : Type} (m : M A) (k : A -> M B) : M B :=
  fun w => k (fst (m w)) (snd (m w)).

Declare Scope js_scope.
Delimit Scope js_scope with js.
Notation "x <- m ;; k" := (bind m (fun x => k))
  (at level 100, m at next level, right associativity) : js_scope.
Notation "m ;; k" := (bind m (fun _ => k))
  (at level 100, right associativity) : js_scope.
Local Open Scope js_scope.

Definition this_props : M MessageProps := fun w => (props w, w).

Definition this_state : M MessageState := fun w => (state w, w).

(** [this.setState(partial)] *)
Definition setState (partial : PartialState) : M unit :=
  fun w => (tt, {| props := props w; state := merge (state w) partial;
                   heap := heap w; trace := trace w |}).

(** Calling a callback of the props. *)
Definition call (e : Event) : M unit :=
  fun w => (tt, {| props := props w; state := state w;
                   heap := heap w; trace := trace w ++ [e] |}).

(** A new object. *)
Definition alloc (o : Obj) : M ref :=
  fun w => let r := fresh (dom (heap w)) in
           (r, {| props := props w; state := state w;
                  heap := <[r := o]> (heap w); trace := trace w |}).

(** The own properties of a parser mapping. *)
Definition entries (h : gmap ref Obj) (r : ref) : gmap string ref :=
  match h !! r with
  | Some (OParsers m) => m
  | _ => ∅
  end.

(** [{ ...obj }] *)
Definition spread (r : ref) : M ref :=
  fun w => alloc (OParsers (entries (heap w) r)) w.

(** [obj[key] = value] *)
Definition setProperty (r : ref) (key : string) (value : ref) : M unit :=
  fun w => (tt, {| props := props w; state := state w;
                   heap := <[r := OParsers (<[key := value]> (entries (heap w) r))]> (heap w);
                   trace := trace w |}).

(** [delete obj[key]] *)
Definition deleteProperty (r : ref) (key : string) : M unit :=
  fun w => (tt, {| props := props w; state := state w;
                   heap := <[r := OParsers (delete key (entries (heap w) r))]> (heap w);
                   trace := trace w |}).

(** [Object.keys(obj).length] *)
Definition keysLength (r : ref) : M Z :=
  fun w => (Z.of_nat (size (entries (heap w) r)), w).

(** *** The methods of the class *)

Section Methods.

Context `{I18n.Translations}.

(** [this.state?.idError !== null]; [this.state] is [undefined] while
    the constructor runs, and [undefined !== null] holds. *)
Definition idError_not_null (this_state : option MessageState) : bool :=
  match this_state with
  | Some s =>
      match idError s with
      | Some _ => true
      | None => false
      end
  | None => true
  end.

(** [validateState], "check own states". *)
Definition check_own (this_state : option MessageState)
    (state : PartialState) (isValid : bool) : PartialState * bool :=
  match get_id state with
  | Some v =>
      if Js.matches Consts.MESSAGE_ID_REGEXP v
      then (state ++ [K_idError None], isValid)
      else (state ++ [K_idError (Some (I18n.t "Must be a 3 or 8 char hex ID"))],
            false)
  | None =>
      if idError_not_null this_state then (state, false) else (state, isValid)
  end.

(** [validateState], "check if parsers in current state are valid": the
    [for ... in] loop over [this.state.parsersValid]. *)
Definition check_parsers (this_state : option MessageState)
    (isValid : bool) : bool :=
  match this_state with
  | Some s =>
      map_fold (fun (_ : string) (v : bool) (isValid : bool) =>
                  if negb v then false else isValid)
               isValid (parsersValid s)
  | None => isValid
  end.

(** The partial state returned by [validateState] and the value of
    [isValid] when the callback is reached. *)
Definition validate (this_state : option MessageState)
    (state : PartialState) : PartialState * bool :=
  let isValid := true in
  let '(state, isValid) := check_own this_state state isValid in
  let isValid := check_parsers this_state isValid in
  (state, isValid).

(** [validateState(state)] on the mounted component. *)
Definition validateState (state : PartialState) : M PartialState :=
  s <- this_state ;;
  let result := validate (Some s) state in
  p <- this_props ;;
  (if onValidate p then call (EvValidate (uuid p) (snd result)) else ret tt) ;;
  ret (fst result).

Definition blank : MessageState :=
  {| tabIndex := 0; id := ""; idError := None; name := ""; dlc := 0;
     receive := false; send := false; autosend := false; parsers := 1%positive;
     parsersValid := ∅; showRemoveConfirm := false |}.

(** [constructor(props)]: [this.state] is still undefined when
    [validateState] runs; the object it returns, with all eleven keys
    set, becomes the state. *)
Definition constructor (p : MessageProps) (h : gmap ref Obj)
    (tr : list Event) : World :=
  let cfg := config p in
  let '(parsers0, h') :=
    match in_parsers cfg with
    | Some r => (r, h)
    | None => let r := fresh (dom h) in (r, <[r := OParsers ∅]> h)
    end in
  let result :=
    validate None
      [ K_tabIndex 0;
        K_id (default "" (in_id cfg));
        K_idError None;
        K_name (default "" (in_name cfg));
        K_dlc (default (-1) (in_dlc cfg));
        K_receive (default false (in_receive cfg));
        K_send (default false (in_send cfg));
        K_autosend (default false (in_autosend cfg));
        K_parsers parsers0;
        K_parsersValid ∅;
        K_showRemoveConfirm false ] in
  {| props := p;
     state := merge blank (fst result);
     heap := h';
     trace := tr ++ (if onValidate p then [EvValidate (uuid p) (snd result)] else []) |}.

Definition componentDidMount : M unit :=
  validateState [] ;; ret tt.

(** The [msgId] prop handed to each [Parser] child in [render]: the key
    that [interfaces.d.ts] documents as [idWithDlc], "the ID of the
    message with optionally DLC appended if set". *)
Definition msgId (s : MessageState) : string :=
  if 0 <=? dlc s
  then (id s +:+ "-" +:+ Js.Number_toString (dlc s))%string
  else id s.

Definition handleTabChange (newValue : Z) : M unit :=
  setState [K_tabIndex newValue].

Definition handleChange (kv : KeyValue) : M unit :=
  let newState := [kv] in
  newState <- validateState newState ;;
  setState newState ;;
  p <- this_props ;;
  if onChange p then
    s <- this_state ;;
    parsers' <- spread (parsers s) ;;
    call (EvChange (uuid p)
            {| cfg_id := id s; cfg_name := name s; cfg_dlc := dlc s;
               cfg_receive := receive s; cfg_send := send s;
               cfg_autosend := autosend s; cfg_parsers := parsers' |})
  else ret tt.

Definition onParserValidate (parserUuid : string) (valid : bool) : M unit :=
  s <- this_state ;;
  let parsersValid' := <[parserUuid := valid]> (parsersValid s) in
  setState [K_parsersValid parsersValid'] ;;
  validateState [] ;;
  ret tt.

Definition new_parser : AdapterConfigMessageParser :=
  {| parser_id := ""; parser_name := ""; dataType := "int8";
     dataLength := 1; dataOffset := 0; dataUnit := "";
     dataEncoding := "latin1"; booleanMask := 0; booleanInvert := false;
     customScriptRead := ""; customScriptWrite := "" |}.

(** [onParserAdd]; [parserUuid] is the result of [uuidv4()]. *)
Definition onParserAdd (parserUuid : string) : M unit :=
  parser <- alloc (OParser new_parser) ;;
  s <- this_state ;;
  parsers' <- spread (parsers s) ;;
  setProperty parsers' parserUuid parser ;;
  handleChange (K_parsers parsers') ;;
  onParserValidate parserUuid false ;;
  s <- this_state ;;
  n <- keysLength (parsers s) ;;
  setState [K_tabIndex (n - 1)].

Definition onParserChange (parserUuid : string) (parser : ref) : M unit :=
  s <- this_state ;;
  parsers' <- spread (parsers s) ;;
  setProperty parsers' parserUuid parser ;;
  handleChange (K_parsers parsers').

Definition onParserDelete (parserUuid : string) : M unit :=
  s <- this_state ;;
  parsers' <- spread (parsers s) ;;
  deleteProperty parsers' parserUuid ;;
  handleChange (K_parsers parsers') ;;
  s <- this_state ;;
  setState [K_tabIndex (tabIndex s - 1)] ;;
  s <- this_state ;;
  if tabIndex s <? 0 then setState [K_tabIndex 0] else ret tt.

End Methods.

End Message.

(** ** Vocabulary of the specification *)

Module Spec.

Import Message.

(** The hexadecimal characters, upper and lower case. *)
Definition is_hex (c : ascii) : Prop :=
  In c (list_ascii_of_string "0123456789abcdefABCDEF").

(** Exactly 3 or exactly 8 hexadecimal characters. *)
Definition well_formed_id (s : string) : Prop :=
  (String.length s = 3%nat \/ String.length s = 8%nat) /\
  Forall is_hex (list_ascii_of_string s).

(** The conjunction of all cached child verdicts. *)
Definition children_valid (parsersValid : gmap string bool) : bool :=
  bool_decide (map_Forall (fun (_ : string) (v : bool) => v = true) parsersValid).

(** The own-field check of a validation pass: the format of the id being
    set, or else the retained result of the last id check. *)
Definition own_fields_valid (s : MessageState) (state : PartialState) : bool :=
  match get_id state with
  | Some v => Js.matches Consts.MESSAGE_ID_REGEXP v
  | None => bool_decide (idError s = None)
  end.

(** Aggregate validity of a message state. *)
Definition valid (s : MessageState) : bool :=
  bool_decide (idError s = None) && children_valid (parsersValid s).

(** The retained id error mirrors the id of the state. *)
Definition id_checked (s : MessageState) : Prop :=
  idError s = None <-> well_formed_id (id s).

(** The invocation of [props.onValidate], when it is defined. *)
Definition reports (p : MessageProps) (isValid : bool) : list Event :=
  if onValidate p then [EvValidate (uuid p) isValid] else [].

(** The persisted fields of a state, with [r] for the parser mapping. *)
Definition config_of (s : MessageState) (r : ref) : AdapterConfigMessage :=
  {| cfg_id := id s; cfg_name := name s; cfg_dlc := dlc s;
     cfg_receive := receive s; cfg_send := send s;
     cfg_autosend := autosend s; cfg_parsers := r |}.

(** The message fields the inputs of [render] set through
    [handleChange]. *)
Inductive Field : Type :=
| F_id (v : string)
| F_name (v : string)
| F_dlc (v : Z)
| F_receive (v : bool)
| F_send (v : bool)
| F_autosend (v : bool).

Definition key_value (f : Field) : KeyValue :=
  match f with
  | F_id v => K_id v
  | F_name v => K_name v
  | F_dlc v => K_dlc v
  | F_receive v => K_receive v
  | F_send v => K_send v
  | F_autosend v => K_autosend v
  end.

Definition is_id (f : Field) : bool :=
  match f with
  | F_id _ => true
  | _ => false
  end.

(** The mutations of a message: the entry points of the component that
    the inputs, the "add" button and the parser children invoke. *)
Inductive Mutation : Type :=
| SetField (f : Field)
| AddParser (parserUuid : string)
| UpdateParser (parserUuid : string) (parser : ref)
| ReportParser (parserUuid : string) (isValid : bool)
| DeleteParser (parserUuid : string).

Definition perform `{I18n.Translations} (m : Mutation) : M unit :=
  match m with
  | SetField f => handleChange (key_value f)
  | AddParser parserUuid => onParserAdd parserUuid
  | UpdateParser parserUuid parser => onParserChange parserUuid parser
  | ReportParser parserUuid isValid => onParserValidate parserUuid isValid
  | DeleteParser parserUuid => onParserDelete parserUuid
  end.

(** A report of a parser's verdict alone: no persisted field is given a
    value. *)
Definition validity_only (m : Mutation) : bool :=
  match m with
  | ReportParser _ _ => true
  | _ => false
  end.

(** The invocation of [props.onChange], when it is defined, with the
    persisted fields of [s] and the copy [r] of the parser mapping. *)
Definition changes (p : MessageProps) (s : MessageState) (r : ref) : list Event :=
  if onChange p then [EvChange (uuid p) (config_of s r)] else [].

(** The keys of the persisted fields. *)
Definition persisted (kv : KeyValue) : bool :=
  match kv with
  | K_id _ | K_name _ | K_dlc _ | K_receive _ | K_send _ | K_autosend _
  | K_parsers _ => true
  | _ => false
  end.

(** The world after [const parsers = { ...this.state.parsers }] and an
    update [f] of the copy. *)
Definition staged (f : gmap string ref -> gmap string ref) (w : World) : World :=
  {| props := props w; state := state w;
     heap := <[fresh (dom (heap w)) := OParsers (f (entries (heap w) (parsers (state w))))]> (heap w);
     trace := trace w |}.

(** The callback invocations made during a run from [w] to [w']. *)
Definition emitted (w w' : World) : list Event :=
  drop (length (trace w)) (trace w').

Definition is_change (e : Event) : bool :=
  match e with
  | EvChange _ _ => true
  | _ => false
  end.

(** The verdict of the last validity report among [evs]. *)
Fixpoint last_report (evs : list Event) : option bool :=
  match evs with
  | [] => None
  | e :: rest =>
      match last_report rest with
      | Some b => Some b
      | None =>
          match e with
          | EvValidate _ b => Some b
          | _ => None
          end
      end
  end.

(** *** Sample inputs *)

(** Texts left untranslated. *)
Definition untranslated : I18n.Translations := fun key => key.

(** A configured message with id [1AB] and no parsers; all callbacks are
    defined. *)
Definition sample_props : MessageProps :=
  {| onChange := true; onDelete := true; onValidate := true; onAdd := true;
     uuid := "m1";
     config := {| in_id := Some "1AB"; in_name := None; in_dlc := Some 4;
                  in_receive := None; in_send := None; in_autosend := None;
                  in_parsers := None |};
     readonly := false |}.

(** The mounted component of that message, on an empty heap. *)
Definition sample : World :=
  snd (@componentDidMount untranslated (@constructor untranslated sample_props ∅ [])).

(** The sample message after "add parser" was clicked. *)
Definition sample_with_parser : World :=
  snd (@onParserAdd untranslated "p1" sample).

End Spec.

(** ** Parsing numbers *)

Module JsNumber.

(** The white space that [parseInt] skips, among the characters below
    128: tab, line feed, vertical tab, form feed, carriage return and
    space. *)
Definition is_white_space (c : ascii) : bool :=
  let n := N_of_ascii c in
  ((9 <=? n) && (n <=? 13))%N || (n =? 32)%N.

Fixpoint skip_white_space (s : string) : string :=
  match s with
  | String c s' => if is_white_space c then skip_white_space s' else s
  | EmptyString => s
  end.

(** The value of a decimal digit. *)
Definition digit (c : ascii) : option Z :=
  let n := N_of_ascii c in
  if ((48 <=? n) && (n <=? 57))%N then Some (Z.of_N n - 48) else None.

(** The number written by the longest prefix of decimal digits, read
    after the digits that gave [acc]. *)
Fixpoint digits (acc : Z) (s : string) : Z :=
  match s with
  | String c s' =>
      match digit c with
      | Some d => digits (10 * acc + d) s'
      | None => acc
      end
  | EmptyString => acc
  end.

(** [parseInt(s, 10)] where the result is an integer; [None] stands for
    [NaN], the result when no digit follows the optional sign. *)
Definition parseInt (s : string) : option Z :=
  let s := skip_white_space s in
  let '(sign, s) :=
    match s with
    | String "-" s' => (-1, s')
    | String "+" s' => (1, s')
    | _ => (1, s)
    end in
  match s with
  | String c _ =>
      match digit c with
      | Some _ => Some (sign * digits 0 s)
      | None => None
      end
  | EmptyString => None
  end.

End JsNumber.

(** ** What [render] shows and wires *)

Module View.

Import Message.

(** The style of a parser tab: [None] stands for [undefined]. *)
Record TabStyle : Type := {
  color : option string;
  fontStyle : option string
}.

(** The parser config a reference points to. *)
Definition parser_at (h : gmap ref Obj) (r : ref) : option AdapterConfigMessageParser :=
  match h !! r with
  | Some (OParser p) => Some p
  | _ => None
  end.

(** [this.state.parsers[parserUuid]] *)
Definition state_parser (w : World) (parserUuid : string)
    : option AdapterConfigMessageParser :=
  match entries (heap w) (parsers (state w)) !! parserUuid with
  | Some r => parser_at (heap w) r
  | None => None
  end.

(** A string is falsy when it is empty. *)
Definition falsy (s : string) : bool :=
  match s with
  | EmptyString => true
  | String _ _ => false
  end.

(** The options of the data length select, in the order of the object
    literal. *)
Definition dlc_options : list string :=
  ["-1"; "0"; "1"; "2"; "3"; "4"; "5"; "6"; "7"; "8"]%string.

Section View.

Context `{I18n.Translations}.

Local Open Scope js_scope.

(** [getParserTabLabel(parser)]; [parser?.id] is undefined when the
    parser is. *)
Definition getParserTabLabel (parser : option AdapterConfigMessageParser) : string :=
  match parser with
  | None => I18n.t "ID missing"
  | Some p =>
      if falsy (parser_id p) then I18n.t "ID missing"
      else if falsy (parser_name p) then parser_id p
      else (parser_name p +:+ " (" +:+ parser_id p +:+ ")")%string
  end.

(** The label of the tab that [render] makes for a key of
    [this.state.parsers]; [render] makes no tab for any other key
    ([None]). *)
Definition tab_label (w : World) (parserUuid : string) : option string :=
  match state_parser w parserUuid with
  | Some p => Some (getParserTabLabel (Some p))
  | None => None
  end.

(** The style of the tab that [render] makes for a key of
    [this.state.parsers]: red when the cached verdict of the parser is
    [false], italic when the parser has no id.  [render] makes no tab
    for any other key ([None]). *)
Definition tab_style (w : World) (parserUuid : string) : option TabStyle :=
  match state_parser w parserUuid with
  | Some p =>
      Some {| color :=
                match parsersValid (state w) !! parserUuid with
                | Some false => Some "red"%string
                | _ => None
                end;
              fontStyle :=
                if falsy (parser_id p) then Some "italic"%string else None |}
  | None => None
  end.

(** The value shown by the data length select. *)
Definition dlcSelect_value (s : MessageState) : string :=
  Js.Number_toString (dlc s).

(** [onChange] of the data length select:
    [this.handleChange('dlc', parseInt(v, 10))].  The result is [None]
    when [parseInt] gives [NaN], which the integer-valued [dlc] of this
    model cannot hold. *)
Definition dlcSelect_onChange (v : string) : option (M unit) :=
  match JsNumber.parseInt v with
  | Some n => Some (handleChange (K_dlc n))
  | None => None
  end.

(** [onClick] of the remove button, which is rendered when
    [props.onDelete] is defined. *)
Definition removeFab_onClick : M unit :=
  setState [K_showRemoveConfirm true].

(** [onClick] of the add button in the top right corner. *)
Definition addFab_onClick : M unit :=
  p <- this_props ;;
  if onAdd p then call (EvAdd (uuid p)) else ret tt.

(** [onClose] of the remove confirm dialog. *)
Definition removeConfirm_onClose (ok : bool) : M unit :=
  p <- this_props ;;
  (if ok && onDelete p then call (EvDelete (uuid p)) else ret tt) ;;
  setState [K_showRemoveConfirm false].

End View.

End View.

(** ** The life of a component *)

Module Lifetime.

Import Message Spec.

(** The parser mapping the state refers to. *)
Definition mapping (w : World) : gmap string ref :=
  entries (heap w) (parsers (state w)).


(** The parser mapping a mutation is to produce: the mapping of the
    state with one key set or removed.  The parser that [onParserAdd]
    creates is the first object it allocates. *)
Definition new_mapping (m : Mutation) (w : World) : gmap string ref :=
  match m with
  | AddParser k => <[k := fresh (dom (heap w))]> (mapping w)
  | UpdateParser k r => <[k := r]> (mapping w)
  | DeleteParser k => delete k (mapping w)
  | _ => mapping w
  end.

(** The cached child verdicts a mutation is to produce. *)
Definition new_verdicts (m : Mutation) (pv : gmap string bool) : gmap string bool :=
  match m with
  | AddParser k => <[k := false]> pv
  | ReportParser k v => <[k := v]> pv
  | _ => pv
  end.

(** The tab a mutation is to select: the last one after a parser was
    added, the one before (if any) after a parser was deleted. *)
Definition new_tab (m : Mutation) (w : World) : Z :=
  match m with
  | AddParser _ => Z.of_nat (size (new_mapping m w)) - 1
  | DeleteParser _ => Z.max 0 (tabIndex (state w) - 1)
  | _ => tabIndex (state w)
  end.

(** The callback invocations a mutation is to make, from the state
    [before] to the state [after], delivering the copy [r]. *)
Definition calls (m : Mutation) (p : MessageProps) (before after : MessageState)
    (r : ref) : list Event :=
  match m with
  | ReportParser _ _ => reports p (valid after)
  | AddParser _ =>
      reports p (valid before) ++ changes p after r ++ reports p (valid after)
  | _ => reports p (valid after) ++ changes p after r
  end.

Section Lifetime.

Context `{I18n.Translations}.

Local Open Scope js_scope.

(** Mutations performed one after the other. *)
Fixpoint run (ms : list Mutation) : M unit :=
  match ms with
  | [] => ret tt
  | m :: ms' => perform m ;; run ms'
  end.

(** The component constructed from [p], mounted, and mutated by
    [ms]. *)
Definition lifetime (p : MessageProps) (h : gmap ref Obj) (tr : list Event)
    (ms : list Mutation) : World :=
  snd (run ms (snd (componentDidMount (constructor p h tr)))).

End Lifetime.

End Lifetime.

(** * Properties *)

(** ** The message-id pattern *)

Module IdFormat.

Import Spec.

Lemma hex_digit_i_spec (c : ascii) : Js.hex_digit_i c = true <-> is_hex c.
Proof.
  unfold is_hex. split.
  - destruct c as [[] [] [] [] [] [] [] []]; intros Hc;
      try discriminate Hc; simpl;
      repeat (first [left; reflexivity | right]).
  - simpl. intros Hin.
    repeat (destruct Hin as [<- | Hin]; [reflexivity |]).
    contradiction.
Qed.

Lemma run_repeat_class (p : ascii -> bool) (n : nat) :
  forall s : string,
    Js.run (Js.Repeat n (Js.Class p)) s Js.at_end = true <->
    String.length s = n /\ forallb p (list_ascii_of_string s) = true.
Proof.
  induction n as [| n IH]; intros s; simpl.
  - destruct s; simpl; split; try tauto; try (intros [? ?]; discriminate).
    intros ?; discriminate.
  - destruct s as [| c s']; simpl.
    + split; [intros ?; discriminate | intros [? ?]; discriminate].
    + rewrite andb_true_iff, IH. split.
      * intros (Hc & <- & Hs). rewrite Hc. auto.
      * intros (Hl & Hf). apply andb_true_iff in Hf as [Hc Hs].
        injection Hl as Hl. auto.
Qed.

Lemma forallb_hex (s : string) :
  forallb Js.hex_digit_i (list_ascii_of_string s) = true <->
  Forall is_hex (list_ascii_of_string s).
Proof.
  rewrite forallb_forall, Forall_forall. split; intros Hs c Hc.
  - apply hex_digit_i_spec, Hs, list_elem_of_In, Hc.
  - apply hex_digit_i_spec, Hs, list_elem_of_In, Hc.
Qed.

Lemma matches_MESSAGE_ID_REGEXP (s : string) :
  Js.matches Consts.MESSAGE_ID_REGEXP s = true <-> well_formed_id s.
Proof.
  unfold Js.matches, Consts.MESSAGE_ID_REGEXP, well_formed_id.
  change (Js.run (Js.Alt ?a ?b) s Js.at_end)
    with (Js.run a s Js.at_end || Js.run b s Js.at_end).
  rewrite orb_true_iff, !run_repeat_class, <- forallb_hex. tauto.
Qed.

Lemma not_matches_MESSAGE_ID_REGEXP (s : string) :
  Js.matches Consts.MESSAGE_ID_REGEXP s = false <-> ~ well_formed_id s.
Proof.
  rewrite <- matches_MESSAGE_ID_REGEXP.
  destruct (Js.matches _ s); split; congruence.
Qed.

Example id_1AB : Js.matches Consts.MESSAGE_ID_REGEXP "1AB" = true.
Proof. reflexivity. Qed.

Example id_00A0123B : Js.matches Consts.MESSAGE_ID_REGEXP "00A0123B" = true.
Proof. reflexivity. Qed.

Example id_1A : Js.matches Consts.MESSAGE_ID_REGEXP "1A" = false.
Proof. reflexivity. Qed.

Example id_00A0123 : Js.matches Consts.MESSAGE_ID_REGEXP "00A0123" = false.
Proof. reflexivity. Qed.

End IdFormat.

(** ** Runs of the methods *)

Module Runs.

Import Message Spec.

Section Runs.

Context `{I18n.Translations}.

Lemma check_parsers_fold (pv : gmap string bool) (b : bool) :
  map_fold (fun (_ : string) (v : bool) (isValid : bool) =>
              if negb v then false else isValid) b pv
  = b && children_valid pv.
Proof.
  refine (map_fold_weak_ind (fun r m => r = b && children_valid m) _ b _ _ pv);
    unfold children_valid.
  - rewrite bool_decide_eq_true_2; [by rewrite andb_true_r | apply map_Forall_empty].
  - intros k v m r Hk ->. destruct v; simpl.
    + f_equal. apply bool_decide_ext. rewrite map_Forall_insert by done. tauto.
    + rewrite bool_decide_eq_false_2; [by rewrite andb_false_r |].
      intros Hall. by specialize (Hall k false (lookup_insert_eq _ _ _)).
Qed.

Lemma children_valid_lookup (pv : gmap string bool) :
  children_valid pv = true <-> forall k, pv !! k <> Some false.
Proof.
  unfold children_valid. rewrite bool_decide_eq_true. split.
  - intros Hall k Hk. by specialize (Hall k false Hk).
  - intros Hno k v Hk. destruct v; [done |]. by destruct (Hno k).
Qed.

Lemma children_valid_false (pv : gmap string bool) (k : string) :
  pv !! k = Some false -> children_valid pv = false.
Proof.
  intros Hk. apply not_true_is_false. rewrite children_valid_lookup.
  intros Hno. by destruct (Hno k).
Qed.

Lemma idError_not_null_spec (s : MessageState) :
  idError_not_null (Some s) = negb (bool_decide (idError s = None)).
Proof. unfold idError_not_null. by destruct (idError s). Qed.

(** The two blocks of [validateState]. *)
Lemma check_own_verdict (s : MessageState) (state : PartialState) :
  snd (check_own (Some s) state true) = own_fields_valid s state.
Proof.
  unfold check_own, own_fields_valid. destruct (get_id state) as [v |].
  - by destruct (Js.matches _ v).
  - rewrite idError_not_null_spec. by destruct (bool_decide _).
Qed.

Lemma validate_verdict (s : MessageState) (state : PartialState) :
  snd (validate (Some s) state)
  = own_fields_valid s state && children_valid (parsersValid s).
Proof.
  unfold validate. rewrite <- check_own_verdict.
  destruct (check_own (Some s) state true) as [state' b]. simpl.
  apply check_parsers_fold.
Qed.

Lemma validate_no_id (s : MessageState) (state : PartialState) :
  get_id state = None ->
  validate (Some s) state = (state, valid s).
Proof.
  intros Hid. rewrite (surjective_pairing (validate _ _)), validate_verdict.
  unfold own_fields_valid, valid. rewrite Hid. f_equal.
  unfold validate, check_own. rewrite Hid.
  by destruct (idError_not_null (Some s)).
Qed.

Lemma validate_id (s : MessageState) (v : string) :
  validate (Some s) [K_id v]
  = ([K_id v;
      K_idError (if Js.matches Consts.MESSAGE_ID_REGEXP v then None
                 else Some (I18n.t "Must be a 3 or 8 char hex ID"))],
     Js.matches Consts.MESSAGE_ID_REGEXP v && children_valid (parsersValid s)).
Proof.
  rewrite (surjective_pairing (validate _ _)), validate_verdict.
  unfold own_fields_valid, validate, check_own. simpl.
  by destruct (Js.matches _ v).
Qed.

Lemma validateState_run (st : PartialState) (w : World) :
  validateState st w =
  (fst (validate (Some (state w)) st),
   {| props := props w; state := state w; heap := heap w;
      trace := trace w ++ reports (props w) (snd (validate (Some (state w)) st)) |}).
Proof.
  unfold validateState, reports, bind, this_state, this_props, call, ret. simpl.
  destruct w as [p s h tr]; simpl. destruct (onValidate p); simpl; [done |].
  by rewrite app_nil_r.
Qed.

Lemma handleChange_run (kv : KeyValue) (w : World) :
  let v := validate (Some (state w)) [kv] in
  let s' := merge (state w) (fst v) in
  handleChange kv w =
  (tt,
   if onChange (props w) then
     let r := fresh (dom (heap w)) in
     {| props := props w; state := s';
        heap := <[r := OParsers (entries (heap w) (parsers s'))]> (heap w);
        trace := (trace w ++ reports (props w) (snd v))
                 ++ [EvChange (uuid (props w)) (config_of s' r)] |}
   else
     {| props := props w; state := s'; heap := heap w;
        trace := trace w ++ reports (props w) (snd v) |}).
Proof.
  intros v s'. unfold handleChange.
  unfold bind at 1. rewrite validateState_run. simpl.
  unfold bind, setState, this_props, this_state, spread, alloc, call, ret; simpl.
  destruct (onChange (props w)); reflexivity.
Qed.

Lemma onParserValidate_run (k : string) (b : bool) (w : World) :
  let s' := assign (state w) (K_parsersValid (<[k := b]> (parsersValid (state w)))) in
  onParserValidate k b w =
  (tt, {| props := props w; state := s'; heap := heap w;
          trace := trace w ++ reports (props w) (valid s') |}).
Proof.
  intros s'. unfold onParserValidate.
  unfold bind, this_state, setState, ret; cbn [fst snd].
  rewrite validateState_run. cbn [fst snd props state heap trace merge fold_left].
  by rewrite validate_no_id.
Qed.

Lemma entries_insert_eq (h : gmap ref Obj) (r : ref) (m : gmap string ref) :
  entries (<[r := OParsers m]> h) r = m.
Proof. unfold entries. by rewrite lookup_insert_eq. Qed.

Lemma entries_insert_ne (h : gmap ref Obj) (r r' : ref) (o : Obj) :
  r <> r' -> entries (<[r := o]> h) r' = entries h r'.
Proof. intros Hne. unfold entries. by rewrite lookup_insert_ne. Qed.

Lemma fresh_lookup (h : gmap ref Obj) : h !! fresh (dom h) = None.
Proof. apply not_elem_of_dom, is_fresh. Qed.

Lemma fresh_ne (h : gmap ref Obj) (r : ref) : is_Some (h !! r) -> fresh (dom h) <> r.
Proof. intros [o Ho] <-. by rewrite fresh_lookup in Ho. Qed.

Lemma onParserChange_run (k : string) (r : ref) (w : World) :
  onParserChange k r w
  = handleChange (K_parsers (fresh (dom (heap w)))) (staged (insert k r) w).
Proof.
  unfold onParserChange, staged.
  unfold bind, this_state, spread, alloc, setProperty; cbn [fst snd props state heap trace].
  by rewrite entries_insert_eq, insert_insert_eq.
Qed.

Lemma bind_run {A B : Type} (m : M A) (k : A -> M B) (w : World) :
  bind m k w = k (fst (m w)) (snd (m w)).
Proof. reflexivity. Qed.

Lemma set_tabIndex_run (f : MessageState -> Z) (w : World) :
  (s <- this_state ;; setState [K_tabIndex (f s)])%js w
  = (tt, {| props := props w; state := assign (state w) (K_tabIndex (f (state w)));
            heap := heap w; trace := trace w |}).
Proof. reflexivity. Qed.

(** The end of [onParserDelete]: only [tabIndex] changes. *)
Lemma tab_back_run (w : World) :
  exists t : Z,
    (s <- this_state ;;
     setState [K_tabIndex (tabIndex s - 1)] ;;
     s <- this_state ;;
     if tabIndex s <? 0 then setState [K_tabIndex 0] else ret tt)%js w
    = (tt, {| props := props w; state := assign (state w) (K_tabIndex t);
              heap := heap w; trace := trace w |}).
Proof.
  unfold bind, this_state, setState, ret; cbn [fst snd props state heap trace merge fold_left].
  destruct (state w) as [t ? ? ? ? ? ? ? ? ? ?]. cbn.
  destruct (t - 1 <? 0); cbn; eexists; reflexivity.
Qed.

Lemma onParserDelete_run (k : string) (w : World) :
  let w1 := snd (handleChange (K_parsers (fresh (dom (heap w)))) (staged (delete k) w)) in
  exists t : Z,
    onParserDelete k w
    = (tt, {| props := props w1; state := assign (state w1) (K_tabIndex t);
              heap := heap w1; trace := trace w1 |}).
Proof.
  intros w1. unfold onParserDelete.
  do 4 (rewrite bind_run; cbv beta).
  unfold this_state at 1, spread, alloc, deleteProperty.
  cbn [fst snd props state heap trace].
  rewrite entries_insert_eq, insert_insert_eq.
  apply tab_back_run.
Qed.

Lemma onParserAdd_run (k : string) (w : World) :
  let rp := fresh (dom (heap w)) in
  let w0 := {| props := props w; state := state w;
               heap := <[rp := OParser new_parser]> (heap w); trace := trace w |} in
  let w1 := snd (handleChange (K_parsers (fresh (dom (heap w0)))) (staged (insert k rp) w0)) in
  let w2 := snd (onParserValidate k false w1) in
  onParserAdd k w
  = (tt, {| props := props w2;
            state := assign (state w2)
                       (K_tabIndex (Z.of_nat (size (entries (heap w2) (parsers (state w2)))) - 1));
            heap := heap w2; trace := trace w2 |}).
Proof.
  intros rp w0 w1 w2. unfold onParserAdd.
  do 6 (rewrite bind_run; cbv beta).
  unfold alloc at 1, this_state at 1, spread, alloc, setProperty.
  cbn [fst snd props state heap trace].
  rewrite entries_insert_eq, insert_insert_eq.
  reflexivity.
Qed.

Lemma validate_persisted (s : MessageState) (kv : KeyValue) :
  persisted kv = true ->
  snd (validate (Some s) [kv]) = valid (merge s (fst (validate (Some s) [kv]))).
Proof.
  intros Hkv. destruct s as [a1 a2 a3 a4 a5 a6 a7 a8 a9 a10 a11].
  destruct kv; try discriminate Hkv;
    try (rewrite validate_no_id by reflexivity; reflexivity).
  rewrite validate_id.
  generalize (Js.matches Consts.MESSAGE_ID_REGEXP v). intros b.
  unfold valid. cbn. by destruct b.
Qed.

Lemma merge_parsers (s : MessageState) (kv : KeyValue) :
  persisted kv = true ->
  parsers (merge s (fst (validate (Some s) [kv])))
  = match kv with K_parsers v => v | _ => parsers s end.
Proof.
  intros Hkv. destruct s as [a1 a2 a3 a4 a5 a6 a7 a8 a9 a10 a11].
  destruct kv; try discriminate Hkv;
    try (rewrite validate_no_id by reflexivity; reflexivity).
  rewrite validate_id.
  by generalize (Js.matches Consts.MESSAGE_ID_REGEXP v).
Qed.

Lemma handleChange_facts (kv : KeyValue) (w : World) :
  persisted kv = true ->
  let w' := snd (handleChange kv w) in
  let r := fresh (dom (heap w)) in
  props w' = props w /\
  state w' = merge (state w) (fst (validate (Some (state w)) [kv])) /\
  trace w' = trace w ++ reports (props w) (valid (state w'))
                     ++ changes (props w) (state w') r /\
  heap w' = (if onChange (props w)
             then <[r := OParsers (entries (heap w) (parsers (state w')))]> (heap w)
             else heap w).
Proof.
  intros Hkv w' r. subst w'. rewrite handleChange_run. cbn [snd].
  rewrite (validate_persisted _ _ Hkv). unfold changes.
  destruct (onChange (props w)); cbn [props state heap trace];
    rewrite <- ?app_assoc, ?app_nil_r; auto.
Qed.

Lemma copy_lookup (h : gmap ref Obj) (r ps : ref) :
  <[r := OParsers (entries h ps)]> h !! r
  = Some (OParsers (entries (<[r := OParsers (entries h ps)]> h) ps)).
Proof.
  rewrite lookup_insert_eq. destruct (decide (r = ps)) as [-> | Hne].
  - by rewrite entries_insert_eq.
  - by rewrite entries_insert_ne.
Qed.

Lemma assign_parsers_state (s : MessageState) (r : ref) :
  merge s (fst (validate (Some s) [K_parsers r])) = assign s (K_parsers r).
Proof. by rewrite validate_no_id. Qed.

(** [const parsers = { ...this.state.parsers }], an update [f] of the
    copy, and [handleChange('parsers', parsers)]. *)
Lemma staged_change_facts (f : gmap string ref -> gmap string ref) (w : World) :
  let r1 := fresh (dom (heap w)) in
  let ws := staged f w in
  let w1 := snd (handleChange (K_parsers r1) ws) in
  let r := fresh (dom (heap ws)) in
  props w1 = props w /\
  state w1 = assign (state w) (K_parsers r1) /\
  trace w1 = trace w ++ reports (props w) (valid (state w1))
                     ++ changes (props w) (state w1) r /\
  entries (heap w1) r1 = f (entries (heap w) (parsers (state w))) /\
  (forall r0, is_Some (heap w !! r0) -> heap w1 !! r0 = heap w !! r0) /\
  heap w !! r1 = None /\
  (onChange (props w) = true ->
     heap w !! r = None /\ r <> r1 /\
     heap w1 !! r = Some (OParsers (entries (heap w1) r1))).
Proof.
  intros r1 ws w1 r.
  destruct (handleChange_facts (K_parsers r1) ws eq_refl) as (Hp & Hs & Ht & Hh).
  fold w1 in Hp, Hs, Ht, Hh. fold r in Ht, Hh.
  change (props ws) with (props w) in *. change (state ws) with (state w) in *.
  change (trace ws) with (trace w) in *.
  rewrite assign_parsers_state in Hs.
  assert (Hr1 : heap w !! r1 = None) by apply fresh_lookup.
  assert (Hws : heap ws !! r1 = Some (OParsers (f (entries (heap w) (parsers (state w)))))).
  { unfold ws, staged; cbn [heap]. apply lookup_insert_eq. }
  assert (Hr : heap ws !! r = None) by apply fresh_lookup.
  assert (Hne : r <> r1) by (intros ->; congruence).
  assert (Hps : parsers (state w1) = r1).
  { rewrite Hs. by destruct (state w). }
  assert (Hrw : heap w !! r = None).
  { revert Hr. unfold ws, staged; cbn [heap]. fold r1. by rewrite lookup_insert_ne. }
  assert (Hent : entries (heap ws) r1 = f (entries (heap w) (parsers (state w)))).
  { unfold entries at 1. by rewrite Hws. }
  split; [exact Hp |]. split; [exact Hs |]. split; [exact Ht |].
  rewrite Hps in Hh.
  split; [| split; [| split]].
  - rewrite Hh. destruct (onChange (props w)); [| exact Hent].
    by rewrite entries_insert_ne.
  - intros r0 Hr0. rewrite Hh.
    assert (heap ws !! r0 = heap w !! r0) as <-.
    { unfold ws, staged; cbn [heap]. fold r1. rewrite lookup_insert_ne; [done |].
      intros <-. rewrite Hr1 in Hr0. by destruct Hr0. }
    destruct (onChange (props w)); [| done].
    rewrite lookup_insert_ne; [done |]. intros <-. rewrite Hrw in Hr0. by destruct Hr0.
  - exact Hr1.
  - intros Hc. rewrite Hc in Hh. split; [exact Hrw |]. split; [exact Hne |].
    rewrite Hh. rewrite lookup_insert_eq. by rewrite entries_insert_ne.
Qed.

Lemma assign_tabIndex (s : MessageState) (t : Z) :
  valid (assign s (K_tabIndex t)) = valid s /\
  parsers (assign s (K_tabIndex t)) = parsers s /\
  parsersValid (assign s (K_tabIndex t)) = parsersValid s /\
  forall r, config_of (assign s (K_tabIndex t)) r = config_of s r.
Proof. by destruct s. Qed.

Lemma assign_parsersValid (s : MessageState) (pv : gmap string bool) :
  idError (assign s (K_parsersValid pv)) = idError s /\
  parsers (assign s (K_parsersValid pv)) = parsers s /\
  parsersValid (assign s (K_parsersValid pv)) = pv /\
  forall r, config_of (assign s (K_parsersValid pv)) r = config_of s r.
Proof. by destruct s. Qed.

Lemma assign_parsers (s : MessageState) (r1 : ref) :
  valid (assign s (K_parsers r1)) = valid s /\
  parsers (assign s (K_parsers r1)) = r1 /\
  parsersValid (assign s (K_parsersValid (parsersValid s))) = parsersValid s /\
  parsersValid (assign s (K_parsers r1)) = parsersValid s /\
  forall r, config_of (assign s (K_parsers r1)) r = config_of s r.
Proof. by destruct s. Qed.

Lemma field_keeps_parsers (s : MessageState) (f : Field) :
  parsers (merge s (fst (validate (Some s) [key_value f]))) = parsers s.
Proof.
  rewrite merge_parsers by by destruct f. by destruct f.
Qed.

Lemma perform_summary (m : Mutation) (w : World) :
  let p := props w in
  let w' := snd (perform m w) in
  props w' = p /\
  exists (b : bool) (r : ref) (again : bool),
    trace w' = trace w
               ++ (if validity_only m then []
                   else reports p b ++ changes p (state w') r)
               ++ (if again then reports p (valid (state w')) else []) /\
    (again = false -> validity_only m = false /\ b = valid (state w')) /\
    (validity_only m = true ->
       heap w' = heap w /\ parsers (state w') = parsers (state w) /\
       forall r', config_of (state w') r' = config_of (state w) r') /\
    (validity_only m = false -> onChange p = true ->
       heap w !! r = None /\
       heap w' !! r = Some (OParsers (entries (heap w') (parsers (state w')))) /\
       (is_Some (heap w !! parsers (state w)) -> r <> parsers (state w'))).
Proof.
  intros p w'. subst p w'. destruct m as [f | k | k rr | k v | k]; cbn [perform validity_only].
  - (* SetField *)
    destruct (handleChange_facts (key_value f) w) as (Hp & Hs & Ht & Hh);
      [by destruct f |].
    split; [exact Hp |].
    exists (valid (state (snd (handleChange (key_value f) w)))),
           (fresh (dom (heap w))), false.
    rewrite Ht, app_nil_r. split; [done |]. split; [done |]. split; [done |].
    intros _ Hc. rewrite Hc in Hh.
    assert (Hps : parsers (state (snd (handleChange (key_value f) w))) = parsers (state w)).
    { rewrite Hs. apply field_keeps_parsers. }
    split; [apply fresh_lookup |]. rewrite Hh, Hps. split; [apply copy_lookup |].
    apply fresh_ne.
  - (* AddParser *)
    rewrite onParserAdd_run.
    set (rp := fresh (dom (heap w))).
    set (w0 := {| props := props w; state := state w;
                  heap := <[rp := OParser new_parser]> (heap w);
                  trace := trace w |}).
    set (w1 := snd (handleChange (K_parsers (fresh (dom (heap w0))))
                      (staged (insert k rp) w0))).
    destruct (staged_change_facts (insert k rp) w0)
      as (Hp & Hs & Ht & Hent & Hkeep & Hr1 & Hfresh).
    fold w1 in Hp, Hs, Ht, Hent, Hkeep, Hfresh.
    change (props w0) with (props w) in *. change (state w0) with (state w) in *.
    change (trace w0) with (trace w) in *.
    set (r := fresh (dom (heap (staged (insert k rp) w0)))) in *.
    set (r1 := fresh (dom (heap w0))) in *.
    assert (Hrw : onChange (props w) = true -> heap w !! r = None).
    { intros Hc. destruct (Hfresh Hc) as (Hr & _ & _). revert Hr.
      unfold w0; cbn [heap]. destruct (decide (rp = r)) as [<- | Hneq].
      - by rewrite lookup_insert_eq.
      - by rewrite lookup_insert_ne. }
    clearbody w1 r r1. rewrite onParserValidate_run. cbn [snd props state heap trace].
    set (s2 := assign (state w1) (K_parsersValid (<[k:=false]> (parsersValid (state w1))))).
    destruct (assign_tabIndex s2
                (Z.of_nat (size (entries (heap w1) (parsers s2))) - 1))
      as (Hv & Hps & _ & Hcfg).
    destruct (assign_parsersValid (state w1) (<[k:=false]> (parsersValid (state w1))))
      as (_ & Hps2 & _ & Hcfg2). fold s2 in Hps2, Hcfg2.
    split; [exact Hp |].
    exists (valid (state w1)), r, true.
    unfold changes. rewrite Hv, !Hcfg, !Hcfg2, Hps, Hps2, Hp, Ht. unfold changes.
    split; [by rewrite <- !app_assoc |]. split; [done |]. split; [done |].
    intros _ Hc. destruct (Hfresh Hc) as (Hr & Hne & Hlook).
    assert (Hps1 : parsers (state w1) = r1).
    { rewrite Hs. apply assign_parsers. }
    rewrite Hps1. split; [by apply Hrw | split; [exact Hlook | done]].
  - (* UpdateParser *)
    rewrite onParserChange_run.
    destruct (staged_change_facts (insert k rr) w)
      as (Hp & Hs & Ht & Hent & Hkeep & Hr1 & Hfresh).
    set (w1 := snd (handleChange (K_parsers (fresh (dom (heap w)))) (staged (insert k rr) w))) in *.
    split; [exact Hp |].
    exists (valid (state w1)), (fresh (dom (heap (staged (insert k rr) w)))), false.
    rewrite Ht, app_nil_r. split; [done |]. split; [done |]. split; [done |].
    intros _ Hc. destruct (Hfresh Hc) as (Hr & Hne & Hlook).
    assert (Hps1 : parsers (state w1) = fresh (dom (heap w))).
    { rewrite Hs. apply assign_parsers. }
    by rewrite Hps1.
  - (* ReportParser *)
    rewrite onParserValidate_run. cbn [snd props state heap trace].
    destruct (assign_parsersValid (state w) (<[k:=v]> (parsersValid (state w))))
      as (_ & Hps2 & _ & Hcfg2).
    split; [done |]. exists true, 1%positive, true.
    split; [done |]. split; [done |]. split; [done |]. done.
  - (* DeleteParser *)
    destruct (onParserDelete_run k w) as [t Hrun]. rewrite Hrun.
    cbn [snd props state heap trace].
    destruct (staged_change_facts (delete k) w)
      as (Hp & Hs & Ht & Hent & Hkeep & Hr1 & Hfresh).
    set (w1 := snd (handleChange (K_parsers (fresh (dom (heap w)))) (staged (delete k) w))) in *.
    destruct (assign_tabIndex (state w1) t) as (Hv & Hps & _ & Hcfg).
    split; [exact Hp |].
    exists (valid (state w1)), (fresh (dom (heap (staged (delete k) w)))), false.
    rewrite Hv, Hps, Ht, app_nil_r. unfold changes. rewrite !Hcfg.
    split; [done |]. split; [done |]. split; [done |].
    intros _ Hc. destruct (Hfresh Hc) as (Hr & Hne & Hlook).
    assert (Hps1 : parsers (state w1) = fresh (dom (heap w))).
    { rewrite Hs. apply assign_parsers. }
    by rewrite Hps1.
Qed.

Lemma emitted_app (w w' : World) (evs : list Event) :
  trace w' = trace w ++ evs -> emitted w w' = evs.
Proof. intros Ht. unfold emitted. rewrite Ht. apply drop_app_length. Qed.

Lemma last_report_snoc (evs : list Event) (u : string) (b : bool) :
  last_report (evs ++ [EvValidate u b]) = Some b.
Proof. induction evs as [| e evs IH]; simpl; [done |]. by rewrite IH. Qed.

Lemma last_report_snoc_change (evs : list Event) (u : string) (cfg : AdapterConfigMessage) :
  last_report (evs ++ [EvChange u cfg]) = last_report evs.
Proof.
  induction evs as [| e evs IH]; simpl; [done |]. by rewrite IH.
Qed.

Lemma in_reports (p : MessageProps) (b : bool) (e : Event) :
  In e (reports p b) -> is_change e = false.
Proof. unfold reports. destruct (onValidate p); simpl; [| done]. by intros [<- | []]. Qed.

End Runs.

End Runs.

(** ** The id check *)

Module IdCheck.

Import Message Spec Runs IdFormat.

Section IdCheck.

Context `{I18n.Translations}.

(** C2.  Setting a string [v] as the message id leaves the id error
    message in the state, and makes the own-field check of the
    validation fail, if and only if [v] is not exactly 3 or exactly 8
    hexadecimal characters (either case); a well-formed id clears the
    error.  A malformed id is reported as invalid, and the empty string
    is malformed. *)
Theorem id_error_iff_malformed (w : World) (v : string) :
  let w' := snd (handleChange (K_id v) w) in
  (idError (state w') = Some (I18n.t "Must be a 3 or 8 char hex ID")
     <-> ~ well_formed_id v) /\
  (idError (state w') = None <-> well_formed_id v) /\
  (snd (check_own (Some (state w)) [K_id v] true) = false <-> ~ well_formed_id v) /\
  (~ well_formed_id v ->
     exists rest, trace w' = trace w ++ reports (props w) false ++ rest) /\
  ~ well_formed_id "".
Proof.
  intros w'.
  destruct (handleChange_facts (K_id v) w eq_refl) as (Hp & Hs & Ht & _).
  fold w' in Hp, Hs, Ht.
  assert (Hid : idError (state w')
                = if Js.matches Consts.MESSAGE_ID_REGEXP v then None
                  else Some (I18n.t "Must be a 3 or 8 char hex ID")).
  { rewrite Hs, validate_id. by destruct (state w). }
  assert (Hvalid : ~ well_formed_id v -> valid (state w') = false).
  { intros Hv. apply not_matches_MESSAGE_ID_REGEXP in Hv.
    unfold valid. by rewrite Hid, Hv. }
  rewrite check_own_verdict. unfold own_fields_valid. cbn [get_id].
  rewrite <- !not_matches_MESSAGE_ID_REGEXP, <- matches_MESSAGE_ID_REGEXP.
  rewrite Hid. repeat split.
  - by destruct (Js.matches Consts.MESSAGE_ID_REGEXP v).
  - by intros ->.
  - by destruct (Js.matches Consts.MESSAGE_ID_REGEXP v).
  - by intros ->.
  - done.
  - done.
  - intros Hv. rewrite not_matches_MESSAGE_ID_REGEXP in Hv.
    rewrite Ht, (Hvalid Hv). eauto.
Qed.

End IdCheck.

(** The two-character id [1A] on the sample message. *)
Lemma id_error_iff_malformed_witness :
  ~ well_formed_id "1A" /\
  idError (state (snd (@handleChange untranslated (K_id "1A") sample)))
  = Some "Must be a 3 or 8 char hex ID"%string.
Proof.
  assert (Hbad : ~ well_formed_id "1A").
  { intros [[Hlen | Hlen] _]; discriminate Hlen. }
  split; [exact Hbad |].
  exact (proj2 (proj1 (@id_error_iff_malformed untranslated sample "1A")) Hbad).
Defined.

End IdCheck.

(** ** Aggregate validity *)

Module Aggregate.

Import Message Spec Runs IdFormat.

Section Aggregate.

Context `{I18n.Translations}.

(** The verdict a validation pass computes and hands to [onValidate]
    is the own id-format check (of the id being set, else the retained
    result of the last check) AND the conjunction of all cached child
    verdicts; with an empty child-validity map it is the own check
    alone. *)
Lemma validation_pass_verdict :
  (forall (s : MessageState) (st : PartialState),
     snd (validate (Some s) st)
     = own_fields_valid s st && children_valid (parsersValid s)) /\
  (forall (w : World) (st : PartialState),
     trace (snd (validateState st w))
     = trace w ++ reports (props w)
                    (own_fields_valid (state w) st
                     && children_valid (parsersValid (state w)))) /\
  (forall (w : World) (st : PartialState),
     parsersValid (state w) = ∅ ->
     trace (snd (validateState st w))
     = trace w ++ reports (props w) (own_fields_valid (state w) st)).
Proof.
  assert (Hpass : forall (w : World) (st : PartialState),
     trace (snd (validateState st w))
     = trace w ++ reports (props w)
                    (own_fields_valid (state w) st
                     && children_valid (parsersValid (state w)))).
  { intros w st. rewrite validateState_run. cbn [snd trace].
    by rewrite validate_verdict. }
  split; [exact validate_verdict |]. split; [exact Hpass |].
  intros w st Hempty. rewrite Hpass, Hempty.
  unfold children_valid. rewrite bool_decide_eq_true_2 by apply map_Forall_empty.
  by rewrite andb_true_r.
Qed.

(** C7.  Setting a field other than the id ([name], [dlc], [receive],
    [send], [autosend]) cannot make the own-field check fail: the check
    returns the retained result of the last id check, the id error and
    the cached child verdicts are untouched, and the verdict reported is
    the one determined by them alone.  The value set, a [dlc] included,
    is stored as given and compared with nothing. *)
Theorem other_fields_never_fail (w : World) (f : Field) :
  is_id f = false ->
  let w' := snd (handleChange (key_value f) w) in
  snd (check_own (Some (state w)) [key_value f] true)
    = bool_decide (idError (state w) = None) /\
  state w' = assign (state w) (key_value f) /\
  idError (state w') = idError (state w) /\
  parsersValid (state w') = parsersValid (state w) /\
  valid (state w') = valid (state w) /\
  exists rest, trace w' = trace w ++ reports (props w) (valid (state w)) ++ rest.
Proof.
  intros Hf w'.
  destruct (handleChange_facts (key_value f) w) as (Hp & Hs & Ht & _);
    [by destruct f |].
  fold w' in Hp, Hs, Ht.
  assert (Hno : get_id [key_value f] = None) by (by destruct f).
  rewrite validate_no_id in Hs by exact Hno. cbn in Hs.
  assert (Hkeep : idError (state w') = idError (state w)
                  /\ parsersValid (state w') = parsersValid (state w)).
  { rewrite Hs. destruct (state w). by destruct f. }
  destruct Hkeep as [Hid Hpv].
  assert (Hvalid : valid (state w') = valid (state w)).
  { unfold valid. by rewrite Hid, Hpv. }
  split.
  { rewrite check_own_verdict. unfold own_fields_valid. by rewrite Hno. }
  split; [exact Hs |]. split; [exact Hid |]. split; [exact Hpv |].
  split; [exact Hvalid |]. rewrite Ht, Hvalid. eauto.
Qed.

(** The id error of the state is null exactly when the id of the state
    is well formed: the constructor establishes this and every mutation
    keeps it, so the retained own-field check is the format check of
    the current id. *)
Lemma constructor_id_checked (p : MessageProps) (h : gmap ref Obj)
    (tr : list Event) :
  id_checked (state (constructor p h tr)).
Proof.
  unfold id_checked, constructor. rewrite <- matches_MESSAGE_ID_REGEXP.
  destruct (in_parsers (config p)); unfold validate, check_own; cbn [get_id];
    generalize (default ""%string (in_id (config p))); intros v;
    destruct (Js.matches Consts.MESSAGE_ID_REGEXP v) eqn:Hv; cbn;
    rewrite Hv; split; congruence.
Qed.

Lemma perform_id_checked (m : Mutation) (w : World) :
  id_checked (state w) -> id_checked (state (snd (perform m w))).
Proof.
  intros Hinv.
  destruct m as [f | k | k rr | k v | k]; cbn [perform].
  - (* SetField *)
    destruct (handleChange_facts (key_value f) w) as (_ & Hs & _);
      [by destruct f |].
    rewrite Hs. revert Hinv. unfold id_checked.
    destruct f as [v | v | v | v | v | v]; cbn [key_value];
      try (rewrite validate_no_id by reflexivity; by destruct (state w)).
    rewrite validate_id.
    destruct (state w). cbn. intros _. rewrite <- matches_MESSAGE_ID_REGEXP.
    destruct (Js.matches Consts.MESSAGE_ID_REGEXP v); split; congruence.
  - (* AddParser *)
    rewrite onParserAdd_run. cbn [snd state].
    rewrite onParserValidate_run. cbn [snd state heap].
    match goal with
    | |- context [staged ?f ?w0] =>
        destruct (staged_change_facts f w0) as (_ & Hs & _)
    end.
    cbn [state heap] in Hs. rewrite Hs.
    revert Hinv. unfold id_checked. by destruct (state w).
  - (* UpdateParser *)
    rewrite onParserChange_run.
    destruct (staged_change_facts (insert k rr) w) as (_ & Hs & _).
    rewrite Hs. revert Hinv. unfold id_checked. by destruct (state w).
  - (* ReportParser *)
    rewrite onParserValidate_run. cbn [snd state].
    revert Hinv. unfold id_checked. by destruct (state w).
  - (* DeleteParser *)
    destruct (onParserDelete_run k w) as [t ->]. cbn [snd state].
    destruct (staged_change_facts (delete k) w) as (_ & Hs & _).
    rewrite Hs. revert Hinv. unfold id_checked. by destruct (state w).
Qed.

(** In such a state the message is valid exactly when its id is well
    formed and no cached child verdict is [false]. *)
Lemma valid_iff (s : MessageState) :
  id_checked s ->
  valid s = true <->
  well_formed_id (id s) /\ forall k, parsersValid s !! k <> Some false.
Proof.
  intros Hinv. unfold valid.
  rewrite andb_true_iff, bool_decide_eq_true, children_valid_lookup.
  unfold id_checked in Hinv. tauto.
Qed.

End Aggregate.

(** C3, at the failing input.  The sample message, mounted with the
    well-formed id [1AB], is given a parser [p1] and the parser is deleted
    again.  The message then has zero parsers and a valid id, and the id
    error is null; yet a validation pass reports it invalid, and so does
    setting the valid id anew, because the child-validity map still holds
    [false] for [p1].  The same message before it was given the parser,
    with zero parsers and the same id, is reported valid. *)
Theorem zero_parsers_reported_invalid :
  let w := snd (@onParserDelete untranslated "p1" sample_with_parser) in
  entries (heap w) (parsers (state w)) = ∅ /\
  id (state w) = "1AB"%string /\
  Js.matches Consts.MESSAGE_ID_REGEXP (id (state w)) = true /\
  idError (state w) = None /\
  parsersValid (state w) = {[ "p1"%string := false ]} /\
  emitted w (snd (@validateState untranslated [] w)) = [EvValidate "m1" false] /\
  last_report (emitted w (snd (@handleChange untranslated (K_id "1AB") w)))
  = Some false /\
  entries (heap sample) (parsers (state sample)) = ∅ /\
  id (state sample) = "1AB"%string /\
  parsersValid (state sample) = ∅ /\
  emitted sample (snd (@validateState untranslated [] sample))
  = [EvValidate "m1" true].
Proof.
  vm_compute. repeat split; reflexivity.
Qed.

(** A data length of 8 set on the sample message with its invalid
    parser. *)
Lemma other_fields_never_fail_witness :
  is_id (F_dlc 8) = false /\
  dlc (state (snd (@handleChange untranslated (K_dlc 8) sample_with_parser))) = 8 /\
  valid (state (snd (@handleChange untranslated (K_dlc 8) sample_with_parser)))
  = valid (state sample_with_parser).
Proof.
  split; [reflexivity |].
  destruct (@other_fields_never_fail untranslated sample_with_parser (F_dlc 8) eq_refl)
    as (_ & Hs & _ & _ & Hv & _).
  split; [| exact Hv]. cbn [key_value] in Hs. rewrite Hs. reflexivity.
Defined.

End Aggregate.

(** ** The composite message id *)

Module Render.

Import Message Spec.

(** C5.  The [msgId] handed to the parser children is the id followed by
    ["-"] and the decimal data length when the data length is at least 0,
    and the id alone when it is -1: ["1AB-4"] for id ["1AB"] and data
    length 4, ["1AB"] for data length -1. *)
Theorem msgId_spec (s : MessageState) :
  (0 <= dlc s -> msgId s = (id s +:+ "-" +:+ Js.Number_toString (dlc s))%string) /\
  (dlc s = -1 -> msgId s = id s) /\
  msgId (assign (assign s (K_id "1AB")) (K_dlc 4)) = "1AB-4"%string /\
  msgId (assign (assign s (K_id "1AB")) (K_dlc (-1))) = "1AB"%string.
Proof.
  unfold msgId. repeat split.
  - intros Hd. by rewrite (proj2 (Z.leb_le 0 (dlc s)) Hd).
  - by intros ->.
  - by destruct s.
  - by destruct s.
Qed.

(** The sample message has the data length 4. *)
Lemma msgId_spec_witness :
  0 <= dlc (state sample) /\ msgId (state sample) = "1AB-4"%string.
Proof.
  assert (Hd : 0 <= dlc (state sample)) by (vm_compute; discriminate).
  split; [exact Hd |]. exact (proj1 (msgId_spec (state sample)) Hd).
Defined.

End Render.

(** ** Adding and deleting parsers *)

Module Parsers.

Import Message Spec Runs.

Section Parsers.

Context `{I18n.Translations}.

(** C4.  [onParserAdd] records the verdict [false] for the new key
    before any field of the new parser is edited: afterwards the
    child-validity map holds [false] for the key, the message is
    invalid and the last validity report of the run says so.  The key
    maps to the newly created parser, whose id is the empty string. *)
Theorem onParserAdd_reports_invalid (k : string) (w : World) :
  let w' := snd (onParserAdd k w) in
  parsersValid (state w') !! k = Some false /\
  valid (state w') = false /\
  (exists evs, trace w' = trace w ++ evs ++ reports (props w) false) /\
  (exists rp, entries (heap w') (parsers (state w')) !! k = Some rp /\
              heap w' !! rp = Some (OParser new_parser)) /\
  parser_id new_parser = ""%string.
Proof.
  intros w'. subst w'. rewrite onParserAdd_run.
  set (rp := fresh (dom (heap w))).
  set (w0 := {| props := props w; state := state w;
                heap := <[rp := OParser new_parser]> (heap w);
                trace := trace w |}).
  set (w1 := snd (handleChange (K_parsers (fresh (dom (heap w0))))
                    (staged (insert k rp) w0))).
  destruct (staged_change_facts (insert k rp) w0)
    as (Hp & Hs & Ht & Hent & Hkeep & Hr1 & _).
  fold w1 in Hp, Hs, Ht, Hent, Hkeep.
  change (props w0) with (props w) in *. change (state w0) with (state w) in *.
  change (trace w0) with (trace w) in *.
  assert (Hrp : heap w1 !! rp = Some (OParser new_parser)).
  { rewrite Hkeep; unfold w0; cbn [heap]; by rewrite lookup_insert_eq. }
  assert (Hps1 : parsers (state w1) = fresh (dom (heap w0))).
  { rewrite Hs. apply assign_parsers. }
  clearbody w1. rewrite onParserValidate_run. cbn [snd props state heap trace].
  set (s2 := assign (state w1) (K_parsersValid (<[k:=false]> (parsersValid (state w1))))).
  destruct (assign_tabIndex s2
              (Z.of_nat (size (entries (heap w1) (parsers s2))) - 1))
    as (Hv & Hps & Hpv & _).
  destruct (assign_parsersValid (state w1) (<[k:=false]> (parsersValid (state w1))))
    as (_ & Hps2 & Hpv2 & _). fold s2 in Hps2, Hpv2.
  assert (Hk : parsersValid s2 !! k = Some false).
  { rewrite Hpv2. apply lookup_insert_eq. }
  assert (Hinvalid : valid s2 = false).
  { unfold valid. rewrite (children_valid_false _ _ Hk). apply andb_false_r. }
  rewrite Hv, Hps, Hpv, Hps2, Hps1, Hp, Hinvalid.
  split; [exact Hk |]. split; [done |]. split.
  { rewrite Ht. eexists. by rewrite <- app_assoc. }
  split; [| done]. exists rp. split; [| exact Hrp].
  rewrite Hent. apply lookup_insert_eq.
Qed.

(** What [onParserDelete] changes and what it leaves alone: the key is
    removed from the parser mapping, while the id error and the
    child-validity map, hence the verdict, stay as they were. *)
Lemma onParserDelete_facts (k : string) (w : World) :
  let w' := snd (onParserDelete k w) in
  entries (heap w') (parsers (state w'))
    = delete k (entries (heap w) (parsers (state w))) /\
  idError (state w') = idError (state w) /\
  parsersValid (state w') = parsersValid (state w) /\
  valid (state w') = valid (state w) /\
  exists rest, trace w' = trace w ++ reports (props w) (valid (state w)) ++ rest.
Proof.
  intros w'. subst w'. destruct (onParserDelete_run k w) as [t Hrun]. rewrite Hrun.
  cbn [snd props state heap trace].
  destruct (staged_change_facts (delete k) w)
    as (Hp & Hs & Ht & Hent & Hkeep & Hr1 & _).
  set (w1 := snd (handleChange (K_parsers (fresh (dom (heap w)))) (staged (delete k) w))) in *.
  destruct (assign_tabIndex (state w1) t) as (Hv & Hps & Hpv & _).
  destruct (assign_parsers (state w) (fresh (dom (heap w))))
    as (Hv1 & Hps1 & _ & Hpv1 & _).
  rewrite <- Hs in Hv1, Hps1, Hpv1.
  assert (Hid : idError (assign (state w1) (K_tabIndex t)) = idError (state w)).
  { rewrite Hs. by destruct (state w). }
  rewrite Hv, Hps, Hpv, Hps1, Hv1, Hpv1, Hid, Hent, Ht, Hv1. eauto 10.
Qed.

End Parsers.

(** C1, at the failing input.  The sample message has a well-formed id
    and one parser [p1], whose cached verdict [false] is the only reason
    for the message to be invalid.  After [onParserDelete "p1"] the
    parser mapping is empty and the id error is still null, but the
    child-validity map still holds [false] for [p1]: the message is
    reported invalid by the deletion and by every later validation
    pass. *)
Theorem onParserDelete_keeps_stale_verdict :
  let w := sample_with_parser in
  let w' := snd (@onParserDelete untranslated "p1" w) in
  entries (heap w) (parsers (state w)) !! "p1" <> None /\
  idError (state w) = None /\
  parsersValid (state w) = {[ "p1" := false ]} /\
  entries (heap w') (parsers (state w')) = ∅ /\
  idError (state w') = None /\
  parsersValid (state w') !! "p1" = Some false /\
  valid (state w') = false /\
  last_report (emitted w w') = Some false /\
  last_report (emitted w' (snd (@componentDidMount untranslated w'))) = Some false.
Proof.
  vm_compute. repeat split; try reflexivity. discriminate.
Qed.

End Parsers.

(** ** The callbacks of the props *)

Module Callbacks.

Import Message Spec Runs.

Section Callbacks.

Context `{I18n.Translations}.

(** C8.  Every mutation (setting a field, adding, updating or deleting
    a parser, recording a parser's verdict) calls [onValidate] before it
    completes, when that callback is defined, and the verdict of its
    last report is the aggregate validity of the state the mutation
    leaves behind. *)
Theorem mutation_reports_validity (m : Mutation) (w : World) :
  onValidate (props w) = true ->
  let w' := snd (perform m w) in
  exists evs : list Event,
    trace w' = trace w ++ evs /\
    last_report evs = Some (valid (state w')).
Proof.
  intros Hv w'. destruct (perform_summary m w) as (Hp & b & r & again & Ht & Hagain & _).
  fold w' in Hp, Ht, Hagain. eexists. split; [exact Ht |].
  unfold reports, changes. rewrite Hv.
  destruct again.
  - apply last_report_snoc.
  - destruct Hagain as [-> ->]; [done |]. rewrite app_nil_r.
    destruct (onChange (props w)); reflexivity.
Qed.

(** C6.  A mutation that gives a value to a persisted field (a field
    set from an input, a parser added, updated or deleted) calls
    [onChange], when that callback is defined, with the persisted fields
    of the state after the mutation.  Recording a parser's verdict
    alone never calls [onChange], and changes neither a persisted field
    nor the heap. *)
Theorem change_callback_policy (m : Mutation) (w : World) :
  let w' := snd (perform m w) in
  (validity_only m = false -> onChange (props w) = true ->
     exists cfg : AdapterConfigMessage,
       In (EvChange (uuid (props w)) cfg) (emitted w w') /\
       cfg = config_of (state w') (cfg_parsers cfg)) /\
  (validity_only m = true ->
     Forall (fun e => is_change e = false) (emitted w w') /\
     heap w' = heap w /\
     parsers (state w') = parsers (state w) /\
     forall r, config_of (state w') r = config_of (state w) r).
Proof.
  intros w'. destruct (perform_summary m w) as (Hp & b & r & again & Ht & _ & Hvo & _).
  fold w' in Hp, Ht, Hvo. rewrite (emitted_app _ _ _ Ht). split.
  - intros -> Hc. exists (config_of (state w') r). split; [| done].
    unfold changes. rewrite Hc. rewrite !in_app_iff. left. right. by left.
  - intros Hm. rewrite Hm in *. split; [| by apply Hvo].
    apply List.Forall_forall. intros e He. simpl in He. destruct again; [| done].
    by apply in_reports in He.
Qed.

(** C10.  Whenever a mutation calls [onChange], the config delivered
    consists of the seven persisted fields [id], [name], [dlc],
    [receive], [send], [autosend] of the state after the mutation and of
    a parser mapping that is a new object (not on the heap before the
    mutation, and not the object the state holds) with the entries of
    the state's parser mapping.  The type of the delivered record has no
    place for the tab index, the id error, the child-validity map or the
    remove-confirm flag. *)
Theorem delivered_config (m : Mutation) (w : World) (u : string)
    (cfg : AdapterConfigMessage) :
  is_Some (heap w !! parsers (state w)) ->
  let w' := snd (perform m w) in
  In (EvChange u cfg) (emitted w w') ->
  u = uuid (props w) /\
  cfg = config_of (state w') (cfg_parsers cfg) /\
  heap w !! cfg_parsers cfg = None /\
  cfg_parsers cfg <> parsers (state w') /\
  heap w' !! cfg_parsers cfg
  = Some (OParsers (entries (heap w') (parsers (state w')))).
Proof.
  intros Hwf w'.
  destruct (perform_summary m w) as (Hp & b & r & again & Ht & _ & _ & Hch).
  fold w' in Hp, Ht, Hch. rewrite (emitted_app _ _ _ Ht).
  rewrite !in_app_iff. intros [Hin | Hin].
  - destruct (validity_only m); [done |].
    apply in_app_iff in Hin as [Hin | Hin]; [by apply in_reports in Hin |].
    unfold changes in Hin. destruct (onChange (props w)) eqn:Hc; [| done].
    destruct Hin as [[= <- <-] | []].
    destruct (Hch eq_refl eq_refl) as (Hnew & Hcopy & Hne).
    cbn [cfg_parsers config_of]. repeat split; auto.
  - destruct again; [| done]. by apply in_reports in Hin.
Qed.

End Callbacks.

(** Deleting the parser of the sample message. *)
Lemma mutation_reports_validity_witness :
  onValidate (props sample_with_parser) = true /\
  exists evs : list Event,
    trace (snd (@perform untranslated (DeleteParser "p1") sample_with_parser))
    = trace sample_with_parser ++ evs /\
    last_report evs
    = Some (valid (state (snd (@perform untranslated (DeleteParser "p1")
                                 sample_with_parser)))).
Proof.
  split; [reflexivity |].
  exact (@mutation_reports_validity untranslated (DeleteParser "p1")
           sample_with_parser eq_refl).
Defined.

(** Setting the data length calls [onChange]; a parser's verdict alone
    does not. *)
Lemma change_callback_policy_witness :
  (validity_only (SetField (F_dlc 8)) = false /\
   onChange (props sample) = true /\
   exists cfg : AdapterConfigMessage,
     In (EvChange "m1" cfg)
        (emitted sample (snd (@perform untranslated (SetField (F_dlc 8)) sample))) /\
     cfg = config_of (state (snd (@perform untranslated (SetField (F_dlc 8)) sample)))
                     (cfg_parsers cfg)) /\
  (validity_only (ReportParser "p1" true) = true /\
   Forall (fun e => is_change e = false)
          (emitted sample_with_parser
             (snd (@perform untranslated (ReportParser "p1" true) sample_with_parser)))).
Proof.
  split.
  - split; [reflexivity |]. split; [reflexivity |].
    exact (proj1 (@change_callback_policy untranslated (SetField (F_dlc 8)) sample)
             eq_refl eq_refl).
  - split; [reflexivity |].
    exact (proj1 (proj2 (@change_callback_policy untranslated (ReportParser "p1" true)
                           sample_with_parser) eq_refl)).
Defined.

(** Renaming the sample message with its parser: the copy delivered is the
    object 5, the state holds the object 3. *)
Lemma delivered_config_witness :
  let cfg := {| cfg_id := "1AB"; cfg_name := "Engine"; cfg_dlc := 4;
                cfg_receive := false; cfg_send := false; cfg_autosend := false;
                cfg_parsers := 5%positive |} in
  let w' := snd (@perform untranslated (SetField (F_name "Engine")) sample_with_parser) in
  is_Some (heap sample_with_parser !! parsers (state sample_with_parser)) /\
  In (EvChange "m1" cfg) (emitted sample_with_parser w') /\
  parsers (state w') = 3%positive /\
  heap sample_with_parser !! 5%positive = None /\
  heap w' !! 5%positive = Some (OParsers (entries (heap w') 3%positive)).
Proof.
  intros cfg w'.
  assert (Hwf : is_Some (heap sample_with_parser !! parsers (state sample_with_parser))).
  { eexists. vm_compute. reflexivity. }
  assert (Hin : In (EvChange "m1" cfg) (emitted sample_with_parser w')).
  { vm_compute. right. left. reflexivity. }
  destruct (@delivered_config untranslated (SetField (F_name "Engine"))
              sample_with_parser "m1" cfg Hwf Hin) as (_ & _ & Hnew & _ & Hcopy).
  split; [exact Hwf |]. split; [exact Hin |]. split; [reflexivity |].
  split; [exact Hnew | exact Hcopy].
Defined.

End Callbacks.

(** ** Effects of the mutations *)

Module Effects.

Import Message Spec Runs Lifetime.

Section Effects.

Context `{I18n.Translations}.

Lemma children_valid_insert (pv : gmap string bool) (k : string) (v : bool) :
  children_valid (<[k := v]> pv) = v && children_valid (delete k pv).
Proof.
  unfold children_valid. rewrite <- (insert_delete_eq pv k v).
  destruct v; cbn [andb].
  - apply bool_decide_ext. rewrite map_Forall_insert by apply lookup_delete_eq.
    tauto.
  - apply bool_decide_eq_false_2. intros Hall.
    by specialize (Hall k false (lookup_insert_eq _ _ _)).
Qed.

Lemma entries_copy (h : gmap ref Obj) (r ps : ref) :
  entries (<[r := OParsers (entries h ps)]> h) ps = entries h ps.
Proof.
  destruct (decide (r = ps)) as [-> | Hne].
  - by rewrite entries_insert_eq.
  - by rewrite entries_insert_ne.
Qed.

Lemma entries_new_parser (h : gmap ref Obj) (ps : ref) (p : AdapterConfigMessageParser) :
  entries (<[fresh (dom h) := OParser p]> h) ps = entries h ps.
Proof.
  destruct (decide (fresh (dom h) = ps)) as [<- | Hne].
  - unfold entries. by rewrite lookup_insert_eq, fresh_lookup.
  - by rewrite entries_insert_ne.
Qed.

(** The end of [onParserDelete]: the tab index goes back by one and
    stops at 0. *)
Lemma tab_back_exact (w : World) :
  (s <- this_state ;;
   setState [K_tabIndex (tabIndex s - 1)] ;;
   s <- this_state ;;
   if tabIndex s <? 0 then setState [K_tabIndex 0] else ret tt)%js w
  = (tt, {| props := props w;
            state := assign (state w) (K_tabIndex (Z.max 0 (tabIndex (state w) - 1)));
            heap := heap w; trace := trace w |}).
Proof.
  unfold bind, this_state, setState, ret;
    cbn [fst snd props state heap trace merge fold_left].
  destruct w as [p s h tr]. destruct s as [t ? ? ? ? ? ? ? ? ? ?]. cbn.
  destruct (Z.ltb_spec (t - 1) 0); cbn.
  - by rewrite Z.max_l by lia.
  - by rewrite Z.max_r by lia.
Qed.

Lemma onParserDelete_exact (k : string) (w : World) :
  let w1 := snd (handleChange (K_parsers (fresh (dom (heap w)))) (staged (delete k) w)) in
  onParserDelete k w
  = (tt, {| props := props w1;
            state := assign (state w1) (K_tabIndex (Z.max 0 (tabIndex (state w1) - 1)));
            heap := heap w1; trace := trace w1 |}).
Proof.
  intros w1. unfold onParserDelete.
  do 4 (rewrite bind_run; cbv beta).
  unfold this_state at 1, spread, alloc, deleteProperty.
  cbn [fst snd props state heap trace].
  rewrite entries_insert_eq, insert_insert_eq.
  apply tab_back_exact.
Qed.

(** The state, the heap and the trace after a field was set. *)
Lemma set_field_effects (f : Field) (w : World) :
  let w' := snd (handleChange (key_value f) w) in
  let r := fresh (dom (heap w)) in
  props w' = props w /\
  state w'
  = match f with
    | F_id v =>
        assign (assign (state w) (K_id v))
          (K_idError (if Js.matches Consts.MESSAGE_ID_REGEXP v then None
                      else Some (I18n.t "Must be a 3 or 8 char hex ID")))
    | _ => assign (state w) (key_value f)
    end /\
  trace w' = trace w ++ reports (props w) (valid (state w'))
                     ++ changes (props w) (state w') r /\
  mapping w' = mapping w /\
  (forall r0, is_Some (heap w !! r0) -> heap w' !! r0 = heap w !! r0).
Proof.
  intros w' r.
  destruct (handleChange_facts (key_value f) w) as (Hp & Hs & Ht & Hh);
    [by destruct f |].
  fold w' in Hp, Hs, Ht, Hh. fold r in Ht, Hh.
  assert (Hps : parsers (state w') = parsers (state w)).
  { rewrite Hs. apply field_keeps_parsers. }
  split; [exact Hp |]. split.
  { rewrite Hs. destruct f as [v | v | v | v | v | v]; cbn [key_value];
      [rewrite validate_id; reflexivity
      | rewrite validate_no_id by reflexivity; reflexivity ..]. }
  split; [exact Ht |]. split.
  - unfold mapping. rewrite Hh, Hps. destruct (onChange (props w)); [| done].
    apply entries_copy.
  - intros r0 Hr0. rewrite Hh. destruct (onChange (props w)); [| done].
    rewrite lookup_insert_ne; [done |]. by apply fresh_ne.
Qed.

(** The state, the heap and the trace after the parser mapping was
    copied, updated by [g] and set. *)
Lemma set_parsers_effects (g : gmap string ref -> gmap string ref) (w : World) :
  let w' := snd (handleChange (K_parsers (fresh (dom (heap w)))) (staged g w)) in
  props w' = props w /\
  state w' = assign (state w) (K_parsers (fresh (dom (heap w)))) /\
  (exists r, trace w' = trace w ++ reports (props w) (valid (state w))
                               ++ changes (props w) (state w') r) /\
  mapping w' = g (mapping w) /\
  (forall r0, is_Some (heap w !! r0) -> heap w' !! r0 = heap w !! r0).
Proof.
  intros w'.
  destruct (staged_change_facts g w) as (Hp & Hs & Ht & Hent & Hkeep & _).
  fold w' in Hp, Hs, Ht, Hent, Hkeep.
  split; [exact Hp |]. split; [exact Hs |]. split.
  { eexists. rewrite Ht. do 3 f_equal. rewrite Hs. apply assign_parsers. }
  split; [| exact Hkeep].
  unfold mapping at 1. rewrite Hs.
  rewrite (proj1 (proj2 (assign_parsers _ _))). exact Hent.
Qed.

(** What each mutation does to the heap, the parser mapping, the cached
    verdicts, the tab index and the trace. *)
Lemma perform_effects (m : Mutation) (w : World) :
  let w' := snd (perform m w) in
  props w' = props w /\
  (forall r0, is_Some (heap w !! r0) -> heap w' !! r0 = heap w !! r0) /\
  mapping w' = new_mapping m w /\
  parsersValid (state w') = new_verdicts m (parsersValid (state w)) /\
  tabIndex (state w') = new_tab m w /\
  showRemoveConfirm (state w') = showRemoveConfirm (state w) /\
  (forall r, config_of (state w') r
             = config_of (match m with
                          | SetField f => assign (state w) (key_value f)
                          | _ => state w
                          end) r) /\
  exists r, trace w' = trace w ++ calls m (props w) (state w) (state w') r.
Proof.
  intros w'. subst w'. destruct m as [f | k | k rr | k v | k];
    cbn [perform new_mapping new_verdicts new_tab calls].
  - (* SetField *)
    destruct (set_field_effects f w) as (Hp & Hs & Ht & Hm & Hf).
    split; [exact Hp |]. split; [exact Hf |]. split; [exact Hm |].
    rewrite Hs. repeat split; try (destruct (state w); by destruct f).
    exists (fresh (dom (heap w))). by rewrite <- Hs.
  - (* AddParser *)
    rewrite onParserAdd_run.
    set (rp := fresh (dom (heap w))).
    set (w0 := {| props := props w; state := state w;
                  heap := <[rp := OParser new_parser]> (heap w);
                  trace := trace w |}).
    destruct (set_parsers_effects (insert k rp) w0)
      as (Hp & Hs & (r & Ht) & Hm & Hf).
    set (w1 := snd (handleChange (K_parsers (fresh (dom (heap w0))))
                      (staged (insert k rp) w0))) in *.
    change (props w0) with (props w) in *. change (state w0) with (state w) in *.
    change (trace w0) with (trace w) in *.
    assert (Hm0 : mapping w0 = mapping w) by apply entries_new_parser.
    rewrite Hm0 in Hm. clearbody w1.
    rewrite onParserValidate_run. cbn [snd props state heap trace].
    set (s2 := assign (state w1) (K_parsersValid (<[k:=false]> (parsersValid (state w1))))).
    assert (Hmap : entries (heap w1) (parsers s2) = <[k:=rp]> (mapping w)).
    { rewrite <- Hm. unfold mapping, s2. by destruct (state w1). }
    rewrite Hmap.
    assert (Hcfg : forall r0, config_of (assign s2 (K_tabIndex
                      (Z.of_nat (size (<[k:=rp]> (mapping w))) - 1))) r0
                   = config_of (state w1) r0).
    { intros r0. unfold s2. by destruct (state w1). }
    assert (Hv : valid (assign s2 (K_tabIndex (Z.of_nat (size (<[k:=rp]> (mapping w))) - 1)))
                 = valid s2) by apply assign_tabIndex.
    split; [exact Hp |]. split.
    { intros r0 Hr0. rewrite Hf.
      - unfold w0; cbn [heap]. rewrite lookup_insert_ne; [done |]. by apply fresh_ne.
      - unfold w0; cbn [heap]. rewrite lookup_insert_ne; [done |]. by apply fresh_ne. }
    split.
    { etransitivity; [| exact Hmap]. unfold mapping. cbn [heap state].
      f_equal. apply assign_tabIndex. }
    split.
    { unfold s2. rewrite Hs. by destruct (state w). }
    split.
    { unfold s2. by destruct (state w1). }
    split.
    { unfold s2. rewrite Hs. by destruct (state w). }
    split.
    { intros r0. rewrite Hcfg, Hs. by destruct (state w). }
    exists r. rewrite Hp, Ht, Hv, <- !app_assoc. do 2 f_equal.
    unfold changes. by rewrite Hcfg.
  - (* UpdateParser *)
    rewrite onParserChange_run.
    destruct (set_parsers_effects (insert k rr) w) as (Hp & Hs & (r & Ht) & Hm & Hf).
    set (w1 := snd (handleChange (K_parsers (fresh (dom (heap w)))) (staged (insert k rr) w))) in *.
    clearbody w1.
    assert (Hv : valid (state w1) = valid (state w)).
    { rewrite Hs. apply assign_parsers. }
    split; [exact Hp |]. split; [exact Hf |]. split; [exact Hm |].
    split; [rewrite Hs; by destruct (state w) |].
    split; [rewrite Hs; by destruct (state w) |].
    split; [rewrite Hs; by destruct (state w) |].
    split; [intros r0; rewrite Hs; by destruct (state w) |].
    exists r. by rewrite Ht, Hv.
  - (* ReportParser *)
    rewrite onParserValidate_run. cbn [snd props state heap trace].
    split; [done |]. split; [done |].
    split; [unfold mapping; cbn [heap state]; by destruct (state w) |].
    split; [by destruct (state w) |]. split; [by destruct (state w) |].
    split; [by destruct (state w) |].
    split; [intros r0; by destruct (state w) |]. by exists 1%positive.
  - (* DeleteParser *)
    rewrite onParserDelete_exact. cbn [snd props state heap trace].
    destruct (set_parsers_effects (delete k) w) as (Hp & Hs & (r & Ht) & Hm & Hf).
    set (w1 := snd (handleChange (K_parsers (fresh (dom (heap w)))) (staged (delete k) w))) in *.
    clearbody w1.
    destruct (assign_tabIndex (state w1) (Z.max 0 (tabIndex (state w1) - 1)))
      as (Hv & Hps & Hpv & Hcfg).
    assert (Hv1 : valid (state w1) = valid (state w)).
    { rewrite Hs. apply assign_parsers. }
    split; [exact Hp |]. split; [exact Hf |]. split.
    { rewrite <- Hm. unfold mapping. cbn [heap state]. by rewrite Hps. }
    split; [rewrite Hpv, Hs; by destruct (state w) |].
    split; [rewrite Hs; by destruct (state w) |].
    split; [rewrite Hs; by destruct (state w) |].
    split; [intros r0; rewrite Hcfg, Hs; by destruct (state w) |].
    exists r. rewrite Ht, Hv, Hv1. unfold changes. by rewrite Hcfg.
Qed.

(** The parser that [onParserAdd] creates is found under the new key. *)
Lemma add_new_parser (k : string) (w : World) :
  View.state_parser (snd (onParserAdd k w)) k = Some new_parser.
Proof.
  destruct (perform_effects (AddParser k) w) as (_ & _ & Hm & _).
  cbn [perform new_mapping] in Hm. unfold View.state_parser.
  fold (mapping (snd (onParserAdd k w))). rewrite Hm, lookup_insert_eq.
  rewrite onParserAdd_run. cbn [snd heap].
  rewrite onParserValidate_run. cbn [snd heap].
  set (w0 := {| props := props w; state := state w;
                heap := <[fresh (dom (heap w)) := OParser new_parser]> (heap w);
                trace := trace w |}).
  destruct (set_parsers_effects (insert k (fresh (dom (heap w)))) w0)
    as (_ & _ & _ & _ & Hf).
  unfold View.parser_at. rewrite Hf.
  - unfold w0; cbn [heap]. by rewrite lookup_insert_eq.
  - unfold w0; cbn [heap]. by rewrite lookup_insert_eq.
Qed.

Lemma componentDidMount_run (w : World) :
  componentDidMount w
  = (tt, {| props := props w; state := state w; heap := heap w;
            trace := trace w ++ reports (props w) (valid (state w)) |}).
Proof.
  unfold componentDidMount. rewrite bind_run, validateState_run.
  cbn [fst snd ret]. by rewrite validate_no_id.
Qed.

Lemma run_cons (m : Mutation) (ms : list Mutation) (w : World) :
  run (m :: ms) w = run ms (snd (perform m w)).
Proof. reflexivity. Qed.

Lemma run_two (m1 m2 : Mutation) (w : World) :
  snd (run [m1; m2] w) = snd (perform m2 (snd (perform m1 w))).
Proof. reflexivity. Qed.

(** The state the constructor builds. *)
Lemma constructor_state (p : MessageProps) (h : gmap ref Obj) (tr : list Event) :
  let w := constructor p h tr in
  let v := default ""%string (in_id (config p)) in
  props w = p /\
  tabIndex (state w) = 0 /\
  id (state w) = v /\
  idError (state w)
  = (if Js.matches Consts.MESSAGE_ID_REGEXP v then None
     else Some (I18n.t "Must be a 3 or 8 char hex ID")) /\
  parsersValid (state w) = ∅ /\
  showRemoveConfirm (state w) = false /\
  trace w = tr ++ reports p (Js.matches Consts.MESSAGE_ID_REGEXP v).
Proof.
  intros w v. subst w v. unfold constructor, reports.
  destruct (in_parsers (config p)); unfold validate, check_own; cbn [get_id];
    generalize (default ""%string (in_id (config p))); intros v;
    destruct (Js.matches Consts.MESSAGE_ID_REGEXP v) eqn:Hv; cbn;
    repeat split.
Qed.

End Effects.

End Effects.

(** ** The heap, the parser mapping and the tabs over the life of a component *)

Module Life.

Import Message Spec Runs Lifetime Effects.

Section Life.

Context `{I18n.Translations}.

(** X1.  No sequence of mutations modifies or removes an object that is
    on the heap: each handler works on a copy of the parser mapping, so
    the mapping received with [props.config], the parser objects and the
    copies handed to [onChange] earlier keep their contents. *)
Theorem objects_never_modified (ms : list Mutation) (w : World) (r : ref) :
  is_Some (heap w !! r) ->
  heap (snd (run ms w)) !! r = heap w !! r.
Proof.
  revert w. induction ms as [| m ms IH]; intros w Hr; [done |].
  rewrite run_cons.
  destruct (perform_effects m w) as (_ & Hframe & _).
  rewrite IH; [by apply Hframe |]. by rewrite Hframe.
Qed.



(** X3.  The parser mapping of the state after a mutation is the one
    before with the key set ([onParserAdd], [onParserChange]) or
    removed ([onParserDelete]), and unchanged otherwise; all other keys
    keep their parsers.  The key given to [onParserAdd] leads to a
    parser with the default fields. *)
Theorem parser_mapping_after (m : Mutation) (w : World) :
  let w' := snd (perform m w) in
  mapping w' = new_mapping m w /\
  (forall k r, m = UpdateParser k r -> mapping w' !! k = Some r) /\
  (forall k, m = DeleteParser k -> mapping w' !! k = None) /\
  (forall k, m = AddParser k -> View.state_parser w' k = Some new_parser) /\
  (forall k', match m with
              | AddParser k | UpdateParser k _ | DeleteParser k => k <> k'
              | _ => True
              end -> mapping w' !! k' = mapping w !! k').
Proof.
  intros w'. destruct (perform_effects m w) as (_ & _ & Hm & _).
  fold w' in Hm. rewrite Hm. split; [done |]. split; [| split; [| split]].
  - intros k r ->. apply lookup_insert_eq.
  - intros k ->. apply lookup_delete_eq.
  - intros k ->. apply add_new_parser.
  - intros k' Hk. destruct m; cbn [new_mapping]; try done.
    + by rewrite lookup_insert_ne.
    + by rewrite lookup_insert_ne.
    + by rewrite lookup_delete_ne.
Qed.

(** X4.  Adding a parser under a key that is not in use and deleting it
    again gives back the parser mapping and leaves the persisted fields
    as they were; the last of the remaining tabs is selected. *)
Theorem add_then_delete (k : string) (w : World) :
  mapping w !! k = None ->
  let w' := snd (run [AddParser k; DeleteParser k] w) in
  mapping w' = mapping w /\
  (forall r, config_of (state w') r = config_of (state w) r) /\
  idError (state w') = idError (state w) /\
  tabIndex (state w') = Z.max 0 (Z.of_nat (size (mapping w)) - 1).
Proof.
  intros Hk w'. subst w'. rewrite run_two.
  destruct (perform_effects (AddParser k) w) as (_ & _ & Hm1 & _ & Ht1 & _ & Hc1 & _).
  set (w1 := snd (perform (AddParser k) w)) in *.
  destruct (perform_effects (DeleteParser k) w1) as (_ & _ & Hm2 & _ & Ht2 & _ & Hc2 & _).
  set (w2 := snd (perform (DeleteParser k) w1)) in *.
  cbn [new_mapping new_tab] in *.
  split; [| split; [| split]].
  - rewrite Hm2, Hm1, delete_insert_eq. by apply delete_id.
  - intros r. by rewrite Hc2, Hc1.
  - assert (Hinv : forall m0 w0,
              match m0 with SetField _ => False | _ => True end ->
              idError (state (snd (perform m0 w0))) = idError (state w0)).
    { intros m0 w0 Hm0. destruct m0 as [f | k0 | k0 r0 | k0 v0 | k0]; [done | | | |];
        cbn [perform].
      - rewrite onParserAdd_run. cbn [snd state]. rewrite onParserValidate_run.
        cbn [snd state heap].
        match goal with
        | |- context [staged ?g ?w00] =>
            destruct (set_parsers_effects g w00) as (_ & Hs & _)
        end.
        cbn [state heap] in Hs. rewrite Hs. by destruct (state w0).
      - rewrite onParserChange_run.
        destruct (set_parsers_effects (insert k0 r0) w0) as (_ & Hs & _).
        rewrite Hs. by destruct (state w0).
      - rewrite onParserValidate_run. cbn [snd state]. by destruct (state w0).
      - rewrite onParserDelete_exact. cbn [snd state].
        destruct (set_parsers_effects (delete k0) w0) as (_ & Hs & _).
        rewrite Hs. by destruct (state w0). }
    unfold w2, w1. by rewrite !Hinv.
  - rewrite Ht2, Ht1, map_size_insert, Hk. f_equal. lia.
Qed.

(** X5.  After a parser's verdict [v] is recorded, the message is valid
    exactly when the id error is null, [v] is [true] and no other
    parser has a cached [false]; this verdict is reported.  So a later
    [true] for the only invalid parser of a message with a well-formed
    id makes the message valid. *)
Theorem verdict_after_report (k : string) (v : bool) (w : World) :
  let w' := snd (onParserValidate k v w) in
  let verdict := bool_decide (idError (state w) = None) && v
                 && children_valid (delete k (parsersValid (state w))) in
  valid (state w') = verdict /\
  trace w' = trace w ++ reports (props w) verdict /\
  (v = true -> idError (state w) = None ->
   (forall k', k' <> k -> parsersValid (state w) !! k' <> Some false) ->
   valid (state w') = true).
Proof.
  intros w' verdict. subst w'. rewrite onParserValidate_run.
  cbn [snd state trace].
  assert (Hv : valid (assign (state w)
                   (K_parsersValid (<[k:=v]> (parsersValid (state w))))) = verdict).
  { unfold verdict, valid. destruct (state w). cbn.
    by rewrite children_valid_insert, andb_assoc. }
  rewrite Hv. split; [done |]. split; [done |].
  intros -> Hid Hothers. unfold verdict.
  rewrite bool_decide_eq_true_2 by done. cbn [andb].
  apply children_valid_lookup. intros k' Hk'.
  destruct (decide (k' = k)) as [-> | Hne].
  - by rewrite lookup_delete_eq in Hk'.
  - rewrite lookup_delete_ne in Hk' by done. by apply (Hothers k').
Qed.

(** X6.  The callbacks a mutation invokes, in order: recording a
    verdict calls [onValidate] once; setting a field, updating or
    deleting a parser calls [onValidate] and then [onChange]; adding a
    parser calls [onValidate] with the validity the message had before,
    then [onChange], then [onValidate] with the new validity.  Each call
    is made only if the callback is defined and carries the uuid of the
    component; [onDelete] and [onAdd] are never invoked. *)
Theorem callback_protocol (m : Mutation) (w : World) :
  let w' := snd (perform m w) in
  (exists r, emitted w w' = calls m (props w) (state w) (state w') r) /\
  Forall (fun e => match e with
                   | EvValidate u _ | EvChange u _ => u = uuid (props w)
                   | _ => False
                   end) (emitted w w').
Proof.
  intros w'.
  destruct (perform_effects m w) as (_ & _ & _ & _ & _ & _ & _ & r & Ht).
  fold w' in Ht. rewrite (emitted_app _ _ _ Ht). split; [by exists r |].
  assert (Hrep : forall b, Forall (fun e => match e with
                   | EvValidate u _ | EvChange u _ => u = uuid (props w)
                   | _ => False
                   end) (reports (props w) b)).
  { intros b. unfold reports. destruct (onValidate (props w)); by repeat constructor. }
  assert (Hch : forall s r0, Forall (fun e => match e with
                   | EvValidate u _ | EvChange u _ => u = uuid (props w)
                   | _ => False
                   end) (changes (props w) s r0)).
  { intros s r0. unfold changes. destruct (onChange (props w)); by repeat constructor. }
  destruct m; cbn [calls]; rewrite ?Forall_app; auto.
Qed.

(** X7.  From construction on, whatever fields are set and parsers
    added, updated, reported or deleted, the id error of the state is
    null exactly when the id of the state consists of 3 or 8
    hexadecimal characters; hence the message is valid exactly when its
    id is well formed and no parser has a cached [false]. *)
Theorem id_error_mirrors_id (p : MessageProps) (h : gmap ref Obj)
    (tr : list Event) (ms : list Mutation) :
  let w := lifetime p h tr ms in
  id_checked (state w) /\
  (valid (state w) = true <->
   well_formed_id (id (state w)) /\
   forall k, parsersValid (state w) !! k <> Some false).
Proof.
  intros w.
  assert (Hinv : id_checked (state w)).
  { unfold w, lifetime. rewrite componentDidMount_run. cbn [snd].
    assert (Hstart : id_checked (state
              {| props := props (constructor p h tr);
                 state := state (constructor p h tr);
                 heap := heap (constructor p h tr);
                 trace := trace (constructor p h tr)
                          ++ reports (props (constructor p h tr))
                               (valid (state (constructor p h tr))) |})).
    { apply Aggregate.constructor_id_checked. }
    revert Hstart. generalize ({| props := props (constructor p h tr);
                 state := state (constructor p h tr);
                 heap := heap (constructor p h tr);
                 trace := trace (constructor p h tr)
                          ++ reports (props (constructor p h tr))
                               (valid (state (constructor p h tr))) |}).
    induction ms as [| m ms IH]; intros w0 Hw0; [exact Hw0 |].
    rewrite run_cons. apply IH. by apply Aggregate.perform_id_checked. }
  split; [exact Hinv |]. by apply Aggregate.valid_iff.
Qed.

End Life.

(** The empty parser mapping that the sample message was constructed
    with, after its parser was deleted and the message renamed. *)
Lemma objects_never_modified_witness :
  is_Some (heap sample_with_parser !! 1%positive) /\
  heap (snd (@run untranslated [DeleteParser "p1"; SetField (F_name "Engine")]
               sample_with_parser)) !! 1%positive
  = heap sample_with_parser !! 1%positive.
Proof.
  assert (Hobj : is_Some (heap sample_with_parser !! 1%positive)).
  { eexists. vm_compute. reflexivity. }
  split; [exact Hobj |].
  exact (@objects_never_modified untranslated
           [DeleteParser "p1"; SetField (F_name "Engine")] sample_with_parser
           1%positive Hobj).
Defined.

(** The parser of the sample message deleted. *)
Lemma parser_mapping_after_witness :
  mapping (snd (@perform untranslated (DeleteParser "p1") sample_with_parser)) !! "p1"
  = None.
Proof.
  exact (proj1 (proj2 (proj2 (@parser_mapping_after untranslated
                                (DeleteParser "p1") sample_with_parser)))
           "p1"%string eq_refl).
Defined.

(** The only parser of the sample message reports that it is valid. *)
Lemma verdict_after_report_witness :
  idError (state sample_with_parser) = None /\
  valid (state sample_with_parser) = false /\
  valid (state (snd (@onParserValidate untranslated "p1" true sample_with_parser)))
  = true.
Proof.
  assert (Hid : idError (state sample_with_parser) = None) by reflexivity.
  assert (Hpv : parsersValid (state sample_with_parser)
                = <["p1"%string := false]> (∅ : gmap string bool))
    by (vm_compute; reflexivity).
  split; [exact Hid |]. split; [reflexivity |].
  refine (proj2 (proj2 (@verdict_after_report untranslated "p1" true sample_with_parser))
            eq_refl Hid _).
  intros k' Hne. rewrite Hpv, lookup_insert_ne by done. by rewrite lookup_empty.
Defined.

(** A parser added to the sample message and deleted again. *)
Lemma add_then_delete_witness :
  mapping sample !! "p1" = None /\
  mapping (snd (@run untranslated [AddParser "p1"; DeleteParser "p1"] sample))
  = mapping sample.
Proof.
  assert (Hfree : mapping sample !! "p1" = None) by (vm_compute; reflexivity).
  split; [exact Hfree |].
  exact (proj1 (@add_then_delete untranslated "p1" sample Hfree)).
Defined.

End Life.

(** ** Decimal numerals *)

Module Numbers.

(** Different integers have different numerals. *)
Lemma Number_toString_inj (a b : Z) :
  Js.Number_toString a = Js.Number_toString b -> a = b.
Proof.
  assert (Hparse : forall z,
            NilZero.int_of_string (Js.Number_toString z) = Some (Z.to_int z)).
  { intros z. unfold Js.Number_toString. apply NilZero.isi.
    - destruct z as [| p | p]; cbn [Z.to_int]; [discriminate | | discriminate].
      intros Hnil. injection Hnil as Hnil.
      by apply (DecimalPos.Unsigned.to_uint_nonnil p).
    - destruct z as [| p | p]; cbn [Z.to_int]; [discriminate | discriminate |].
      intros Hnil. injection Hnil as Hnil.
      by apply (DecimalPos.Unsigned.to_uint_nonnil p). }
  intros Hab. apply DecimalZ.to_int_inj.
  pose proof (Hparse a) as Ha. rewrite Hab, Hparse in Ha. congruence.
Qed.

End Numbers.

(** ** What is shown and wired by [render] *)

Module ViewProofs.

Import Message Spec Runs Lifetime Effects View Numbers.

Section ViewProofs.

Context `{I18n.Translations}.

(** X9.  The data length select and the state agree: choosing any of
    its options stores a data length between -1 and 8, after which the
    select shows the chosen option again ([parseInt] fails on none of
    them); and every data length between -1 and 8 is shown as one of the
    options. *)
Theorem dlc_select_round_trip :
  (forall (v : string) (w : World),
     In v dlc_options ->
     exists n : Z,
       dlcSelect_onChange v = Some (handleChange (K_dlc n)) /\
       -1 <= n <= 8 /\
       dlc (state (snd (handleChange (K_dlc n) w))) = n /\
       dlcSelect_value (state (snd (handleChange (K_dlc n) w))) = v) /\
  (forall s : MessageState,
     -1 <= dlc s <= 8 -> In (dlcSelect_value s) dlc_options).
Proof.
  split.
  - intros v w Hv.
    assert (Hshow : forall n, dlc (state (snd (handleChange (K_dlc n) w))) = n).
    { intros n. destruct (set_field_effects (F_dlc n) w) as (_ & Hs & _).
      cbn [key_value] in Hs. rewrite Hs. by destruct (state w). }
    unfold dlcSelect_value, dlcSelect_onChange.
    cbn [dlc_options In] in Hv.
    destruct Hv as [<- | [<- | [<- | [<- | [<- | [<- | [<- | [<- | [<- | [<- | []]]]]]]]]]];
      [exists (-1) | exists 0 | exists 1 | exists 2 | exists 3 | exists 4
       | exists 5 | exists 6 | exists 7 | exists 8];
      (split; [reflexivity |]; split; [lia |]; split; [apply Hshow |]);
      by rewrite Hshow.
  - intros s Hd. unfold dlcSelect_value.
    assert (Hcases : dlc s = -1 \/ dlc s = 0 \/ dlc s = 1 \/ dlc s = 2 \/ dlc s = 3
                     \/ dlc s = 4 \/ dlc s = 5 \/ dlc s = 6 \/ dlc s = 7 \/ dlc s = 8)
      by lia.
    cbn [dlc_options In].
    repeat (destruct Hcases as [-> | Hcases]; [tauto |]).
    rewrite Hcases. tauto.
Qed.

Lemma hex_not_dash (s : string) :
  Forall is_hex (list_ascii_of_string s) ->
  ~ In "-"%char (list_ascii_of_string s).
Proof.
  rewrite Forall_forall. intros Hhex Hin.
  apply list_elem_of_In, Hhex in Hin. unfold is_hex in Hin. cbn in Hin.
  repeat (destruct Hin as [Hin | Hin]; [discriminate Hin |]). done.
Qed.

Lemma append_dash_inj (s1 s2 t1 t2 : string) :
  ~ In "-"%char (list_ascii_of_string s1) ->
  ~ In "-"%char (list_ascii_of_string s2) ->
  (s1 +:+ "-" +:+ t1 = s2 +:+ "-" +:+ t2)%string ->
  s1 = s2 /\ t1 = t2.
Proof.
  revert s2. induction s1 as [| c s1 IH]; intros [| c' s2] H1 H2 Heq;
    simpl in H1, H2, Heq.
  - injection Heq as Heq. by subst.
  - injection Heq as Hc _. destruct H2. left. by symmetry.
  - injection Heq as Hc _. destruct H1. by left.
  - injection Heq as Hc Heq. subst c'.
    destruct (IH s2) as [Hs Ht]; [tauto | tauto | exact Heq |]. by subst.
Qed.

Lemma append_dash_in (s t : string) :
  In "-"%char (list_ascii_of_string (s +:+ "-" +:+ t)%string).
Proof. induction s as [| c s IH]; simpl; [by left | by right]. Qed.

(** X10.  For ids of 3 or 8 hexadecimal characters the composite key
    handed to the parsers tells messages apart: two states with the
    same [msgId] have the same id and the same data length, or both
    have no data length (a negative one). *)
Theorem msgId_injective (s1 s2 : MessageState) :
  well_formed_id (id s1) ->
  well_formed_id (id s2) ->
  msgId s1 = msgId s2 ->
  id s1 = id s2 /\ (dlc s1 = dlc s2 \/ (dlc s1 < 0 /\ dlc s2 < 0)).
Proof.
  intros [_ Hh1%hex_not_dash] [_ Hh2%hex_not_dash]. unfold msgId.
  destruct (Z.leb_spec 0 (dlc s1)), (Z.leb_spec 0 (dlc s2)); intros Heq.
  - apply append_dash_inj in Heq as [Hid Hn]; try done.
    split; [done |]. left. by apply Number_toString_inj.
  - destruct Hh2. rewrite <- Heq. apply append_dash_in.
  - destruct Hh1. rewrite Heq. apply append_dash_in.
  - split; [done |]. right. lia.
Qed.

(** X11.  A new id is stored and handed to [onChange] whether or not it
    passes the check: after [handleChange('id', v)] the state holds [v],
    the other persisted fields and the cached verdicts are untouched,
    and [onChange] (when defined) receives a config with the id [v]. *)
Theorem id_always_stored (v : string) (w : World) :
  let w' := snd (handleChange (K_id v) w) in
  id (state w') = v /\
  (forall r, config_of (state w') r = config_of (assign (state w) (K_id v)) r) /\
  parsersValid (state w') = parsersValid (state w) /\
  mapping w' = mapping w /\
  (onChange (props w) = true ->
   exists cfg, In (EvChange (uuid (props w)) cfg) (emitted w w') /\ cfg_id cfg = v).
Proof.
  intros w'. destruct (set_field_effects (F_id v) w) as (_ & Hs & Ht & Hm & _).
  cbn [key_value] in Hs, Ht, Hm. fold w' in Hs, Ht, Hm.
  split; [rewrite Hs; by destruct (state w) |].
  split; [intros r; rewrite Hs; by destruct (state w) |].
  split; [rewrite Hs; by destruct (state w) |].
  split; [exact Hm |].
  intros Hc. rewrite (emitted_app _ _ _ Ht). unfold changes. rewrite Hc.
  eexists. split; [rewrite in_app_iff; right; by left |].
  rewrite Hs. by destruct (state w).
Qed.

(** X12.  Opening the remove dialog and closing it: the state and the
    heap are as before; [onDelete] is called, once and with the uuid of
    the component, exactly when the dialog was confirmed and the
    callback is defined, and nothing else is called. *)
Theorem remove_dialog_flow (ok : bool) (w : World) :
  showRemoveConfirm (state w) = false ->
  let w1 := snd (removeFab_onClick w) in
  let w' := snd (removeConfirm_onClose ok w1) in
  showRemoveConfirm (state w1) = true /\
  state w' = state w /\
  heap w' = heap w /\
  emitted w w' = (if ok && onDelete (props w) then [EvDelete (uuid (props w))] else []).
Proof.
  intros Hclosed w1 w'. subst w1 w'.
  unfold removeConfirm_onClose, removeFab_onClick, emitted.
  unfold bind, this_props, setState, call, ret.
  cbn [fst snd props state heap trace merge fold_left].
  split; [by destruct (state w) |].
  destruct (ok && onDelete (props w));
    cbn [fst snd props state heap trace merge fold_left];
    (split; [destruct (state w); cbn in *; by subst |]);
    (split; [done |]).
  - apply drop_app_length.
  - by rewrite drop_all.
Qed.

(** X13.  After [onParserAdd] there is a tab for the new parser; it is
    labelled with the "ID missing" text, set in italics and coloured
    red. *)
Theorem new_parser_tab (k : string) (w : World) :
  let w' := snd (onParserAdd k w) in
  tab_label w' k = Some (I18n.t "ID missing") /\
  tab_style w' k
  = Some {| color := Some "red"%string; fontStyle := Some "italic"%string |}.
Proof.
  intros w'. unfold tab_label, tab_style. subst w'.
  rewrite add_new_parser.
  destruct (perform_effects (AddParser k) w) as (_ & _ & _ & Hv & _).
  cbn [perform new_verdicts] in Hv. rewrite Hv, lookup_insert_eq.
  done.
Qed.

(** X14.  The constructor and the mount each report the validity of
    the configured id alone (the empty string when the config has
    none), whatever parsers the config carries: no verdict is cached
    yet.  A config without an id gives an invalid message with the id
    error set.  A parser mapping given in the config becomes the
    mapping of the state as it is, without a copy. *)
Theorem construction_reports (p : MessageProps) (h : gmap ref Obj)
    (tr : list Event) :
  let w := constructor p h tr in
  let b := Js.matches Consts.MESSAGE_ID_REGEXP (default ""%string (in_id (config p))) in
  trace (snd (componentDidMount w)) = tr ++ reports p b ++ reports p b /\
  (b = true <-> well_formed_id (default ""%string (in_id (config p)))) /\
  (in_id (config p) = None ->
     b = false /\
     idError (state w) = Some (I18n.t "Must be a 3 or 8 char hex ID")) /\
  (forall r, in_parsers (config p) = Some r -> parsers (state w) = r /\ heap w = h).
Proof.
  intros w b.
  destruct (constructor_state p h tr) as (Hp & _ & _ & Hid & Hpv & _ & Ht).
  fold w in Hp, Hid, Hpv, Ht. fold b in Hid, Ht.
  split.
  { rewrite componentDidMount_run. cbn [snd trace]. rewrite Ht, Hp, <- app_assoc.
    do 3 f_equal. unfold valid. rewrite Hid, Hpv.
    assert (Hnone : children_valid (∅ : gmap string bool) = true).
    { apply bool_decide_eq_true_2, map_Forall_empty. }
    rewrite Hnone. by destruct b. }
  split; [apply IdFormat.matches_MESSAGE_ID_REGEXP |]. split.
  - intros Hnone. assert (Hb : b = false) by (unfold b; by rewrite Hnone).
    split; [exact Hb |]. by rewrite Hid, Hb.
  - intros r Hr. unfold w, constructor. rewrite Hr.
    destruct (validate None _) as [st isValid] eqn:Hval.
    unfold validate, check_own in Hval. cbn [get_id] in Hval.
    destruct (Js.matches _ _); injection Hval as <- _; by cbn.
Qed.

End ViewProofs.

(** The option [4] chosen on the sample message. *)
Lemma dlc_select_round_trip_witness :
  In "4"%string dlc_options /\
  exists n : Z,
    @dlcSelect_onChange untranslated "4" = Some (@handleChange untranslated (K_dlc n)) /\
    -1 <= n <= 8 /\
    dlc (state (snd (@handleChange untranslated (K_dlc n) sample))) = n /\
    dlcSelect_value (state (snd (@handleChange untranslated (K_dlc n) sample)))
    = "4"%string.
Proof.
  assert (Hin : In "4"%string dlc_options) by (cbn; tauto).
  split; [exact Hin |].
  exact (proj1 (@dlc_select_round_trip untranslated) "4"%string sample Hin).
Defined.

(** The id [XYZ], which fails the check, typed into the sample
    message. *)
Lemma id_always_stored_witness :
  onChange (props sample) = true /\
  exists cfg,
    In (EvChange (uuid (props sample)) cfg)
       (emitted sample (snd (@handleChange untranslated (K_id "XYZ") sample))) /\
    cfg_id cfg = "XYZ"%string.
Proof.
  assert (Hdefined : onChange (props sample) = true) by reflexivity.
  split; [exact Hdefined |].
  exact (proj2 (proj2 (proj2 (proj2 (@id_always_stored untranslated "XYZ" sample))))
           Hdefined).
Defined.

(** A message constructed from a config without an id. *)
Lemma construction_reports_witness :
  let p := {| onChange := true; onDelete := false; onValidate := true; onAdd := false;
              uuid := "m2";
              config := {| in_id := None; in_name := None; in_dlc := None;
                           in_receive := None; in_send := None; in_autosend := None;
                           in_parsers := None |};
              readonly := false |} in
  in_id (config p) = None /\
  Js.matches Consts.MESSAGE_ID_REGEXP (default ""%string (in_id (config p))) = false /\
  idError (state (@constructor untranslated p ∅ []))
  = Some (@I18n.t untranslated "Must be a 3 or 8 char hex ID").
Proof.
  intros p. split; [reflexivity |].
  exact (proj1 (proj2 (proj2 (@construction_reports untranslated p ∅ []))) eq_refl).
Defined.

(** The sample message before and after it was renamed. *)
Lemma msgId_injective_witness :
  let s1 := state sample in
  let s2 := assign (state sample) (K_name "Engine") in
  well_formed_id (id s1) /\ well_formed_id (id s2) /\ msgId s1 = msgId s2 /\
  id s1 = id s2 /\ (dlc s1 = dlc s2 \/ (dlc s1 < 0 /\ dlc s2 < 0)).
Proof.
  intros s1 s2.
  assert (Hok : well_formed_id "1AB").
  { split; [by left |]. repeat constructor; cbv; tauto. }
  assert (H1 : well_formed_id (id s1)) by exact Hok.
  assert (H2 : well_formed_id (id s2)) by exact Hok.
  assert (Heq : msgId s1 = msgId s2) by reflexivity.
  split; [exact H1 |]. split; [exact H2 |]. split; [exact Heq |].
  exact (msgId_injective s1 s2 H1 H2 Heq).
Defined.

(** The remove dialog of the sample message, confirmed. *)
Lemma remove_dialog_flow_witness :
  showRemoveConfirm (state sample) = false /\
  emitted sample (snd (removeConfirm_onClose true (snd (removeFab_onClick sample))))
  = [EvDelete "m1"].
Proof.
  split; [reflexivity |].
  exact (proj2 (proj2 (proj2 (remove_dialog_flow true sample eq_refl)))).
Defined.

End ViewProofs.
